(** * Chat-webv1: the storage layer and the sign-up route

  A shallow embedding of [server/storage.ts] (class [PostgresStorage]) and of
  the sign-up handler of [server/routes.ts].

  Conventions of the embedding.
  - A [Date] is its time value, milliseconds since the epoch, as a [Z];
    comparing two dates with [>] compares the time values.
  - A JavaScript [Map<number, V>] is a [gmap Z V]; a JavaScript object that
    is destructured or spread is a [gmap string value].
  - The database is a record of tables; a table is the list of its rows in
    heap order, with the sequence that feeds its serial [id] column.  Every
    query is answered (the [catch] branches of the storage methods, which
    only run when the connection fails, are outside the model).
  - A storage method runs to completion: it is a function from the state
    before to the result and the state after.  A route handler waits at each
    [await], and the server handles other requests meanwhile;
    [signup_interleaved] makes that explicit for the sign-up route. *)

From Stdlib Require Import ZArith List Lia Permutation Sorted.
From stdpp Require Import base option strings gmap list.

Local Open Scope Z_scope.

(** ** Values of JavaScript objects *)

Inductive value :=
| VNull
| VNum (n : Z)
| VStr (s : string)
| VBool (b : bool)
| VDate (ms : Z).

#[global] Instance value_eq_dec : EqDecision value.
Proof. solve_decision. Defined.

(** [x || null] for an optional string: [undefined], [null] and the empty
  string are falsy. *)
Definition or_null (x : option string) : option string :=
  match x with
  | Some s => if decide (s = EmptyString) then None else Some s
  | None => None
  end.

(** [x || null] for a [Date | undefined]: a [Date] object is truthy. *)
Definition date_or_null (x : option Z) : value :=
  match x with
  | Some ms => VDate ms
  | None => VNull
  end.

(** A nullable text column as a value. *)
Definition opt_str (x : option string) : value :=
  match x with
  | Some s => VStr s
  | None => VNull
  end.

(** ** Row types of the shared schema *)

Inductive AttachmentType := image | file | gif.

#[global] Instance AttachmentType_eq_dec : EqDecision AttachmentType.
Proof. solve_decision. Defined.

Module User.
(** Modelled from the spec: the [users] table of [@shared/schema], whose
    declaration is not part of the sources; the columns are the attributes
    the data model lists for a user. *)
Record t := mk {
  id : Z;
  username : string;
  email : string;
  password : string;
  firstName : string;
  lastName : string;
  avatar : option string;
  bio : option string;
  location : option string;
  website : option string;
  dateOfBirth : option string;
  createdAt : Z;
  lastActivity : option Z
}.

(** The row as the JavaScript object the driver hands back: one key per
    column. *)
Definition to_obj (u : t) : gmap string value :=
  list_to_map
    [ ("id"%string, VNum (id u));
      ("username"%string, VStr (username u));
      ("email"%string, VStr (email u));
      ("password"%string, VStr (password u));
      ("firstName"%string, VStr (firstName u));
      ("lastName"%string, VStr (lastName u));
      ("avatar"%string, opt_str (avatar u));
      ("bio"%string, opt_str (bio u));
      ("location"%string, opt_str (location u));
      ("website"%string, opt_str (website u));
      ("dateOfBirth"%string, opt_str (dateOfBirth u));
      ("createdAt"%string, VDate (createdAt u));
      ("lastActivity"%string, date_or_null (lastActivity u)) ].
End User.

Module SignUpData.
(** Modelled from the spec: the type [SignUpData] of [@shared/schema], the
    validated sign-up fields. *)
Record t := mk {
  username : string;
  email : string;
  password : string;
  firstName : string;
  lastName : string
}.
End SignUpData.

Module Message.
(** Modelled from the spec: the [messages] table of [@shared/schema]. *)
Record t := mk {
  id : Z;
  content : string;
  username : string;
  userId : Z;
  attachmentUrl : option string;
  attachmentType : option AttachmentType;
  attachmentName : option string;
  createdAt : Z;
  updatedAt : option Z
}.
End Message.

#[global] Instance Message_eq_dec : EqDecision Message.t.
Proof. solve_decision. Defined.

Module InsertMessage.
(** Modelled from the spec: the type [InsertMessage] of [@shared/schema];
    an absent or [null] attachment field is [None]. *)
Record t := mk {
  content : string;
  username : string;
  userId : Z;
  attachmentUrl : option string;
  attachmentType : option AttachmentType;
  attachmentName : option string
}.
End InsertMessage.

Module UpdateMessage.
(** Modelled from the spec: the type [UpdateMessage] of [@shared/schema]
    (content only, per the update schema). *)
Record t := mk { content : string }.
End UpdateMessage.

Module ChatTheme.
Record t := mk {
  id : Z;
  name : string;
  primaryColor : string;
  secondaryColor : string;
  backgroundColor : string;
  messageBackgroundSelf : string;
  messageBackgroundOther : string;
  textColor : string;
  isActive : bool;
  createdAt : Z
}.
End ChatTheme.

#[global] Instance ChatTheme_eq_dec : EqDecision ChatTheme.t.
Proof. solve_decision. Defined.

(** ** The query builder *)

Module drizzle.

(** A condition built by the query builder.  It is an object; what the
    database evaluates is its test on a row. *)
Record SQL (R : Type) := mkSQL { test : R -> bool }.
Arguments mkSQL {R} _.
Arguments test {R} _ _.

(** [eq(column, v)]: the column is given by its projection. *)
Definition eq {R V : Type} `{EqDecision V} (column : R -> V) (v : V) : SQL R :=
  mkSQL (fun r => bool_decide (column r = v)).

(** JavaScript truthiness of a condition: every object is truthy. *)
Definition truthy {R : Type} (_ : SQL R) : bool := true.

(** The JavaScript operator [a && b] on two conditions: the value is [b]
    when [a] is truthy and [a] otherwise. *)
Definition js_and {R : Type} (a b : SQL R) : SQL R :=
  if truthy a then b else a.

(** [select().from(t).where(w)]: the rows that pass, in heap order. *)
Definition select_where {R : Type} (w : SQL R) (t : list R) : list R :=
  List.filter (test w) t.

(** [update(t).set(f).where(w).returning()]: the table after, and the new
    versions of the rows that passed.  PostgreSQL does not rewrite a row in
    place: it writes the new version behind the rows of the table, so the
    rows that passed leave their place in the heap order. *)
Definition update_set_where {R : Type} (f : R -> R) (w : SQL R) (t : list R)
  : list R * list R :=
  (List.filter (fun r => negb (test w r)) t ++ List.map f (List.filter (test w) t),
   List.map f (List.filter (test w) t)).

(** [delete(t).where(w).returning()]: the table after, and the rows
    removed. *)
Definition delete_where {R : Type} (w : SQL R) (t : list R) : list R * list R :=
  (List.filter (fun r => negb (test w r)) t, List.filter (test w) t).

(** [ORDER BY key] of the database engine: the rows come back in
    non-decreasing key order; SQL leaves the order among equal keys to the
    engine. *)
Record Engine := mkEngine {
  orderBy : forall {R : Type}, (R -> Z) -> list R -> list R;
  orderBy_Permutation :
    forall (R : Type) (key : R -> Z) (t : list R), Permutation (orderBy key t) t;
  orderBy_Sorted :
    forall (R : Type) (key : R -> Z) (t : list R),
      StronglySorted (fun a b => key a <= key b) (orderBy key t)
}.

End drizzle.


(** ** Sorting rows by a key

    Insertion sort; a row goes before the rows of the same key that follow
    it in the table, so rows of equal key keep their heap order. *)

Section InsertionSort.
Context {R : Type} (key : R -> Z).

Fixpoint insert_row (x : R) (l : list R) : list R :=
  match l with
  | [] => [x]
  | y :: l' =>
      if key x <=? key y
      then x :: y :: l'
      else y :: insert_row x l'
  end.

Definition sort_rows (t : list R) : list R :=
  List.fold_right insert_row [] t.

End InsertionSort.


(** ** The state: the database and the storage object *)

Record Db := mkDb {
  users : list User.t;
  users_id_seq : Z;
  messages : list Message.t;
  messages_id_seq : Z
}.

Record PostgresStorage := mkPostgresStorage {
  userActivity : gmap Z Z;
  currentTheme : option ChatTheme.t;
  themes : gmap Z ChatTheme.t
}.

Record World := mkWorld { db : Db; this : PostgresStorage }.

Definition set_db (d : Db) (w : World) : World := mkWorld d (this w).
Definition set_this (s : PostgresStorage) (w : World) : World := mkWorld (db w) s.

(** Modelled from the spec: [insert(users).values(..).returning()] under the
    column defaults of the [users] table, which [@shared/schema] declares:
    [id] takes the next value of the sequence, [createdAt] is the time of the
    insert, the profile columns that are not given are null. *)
Definition insert_users (signUpData : SignUpData.t) (avatar : option string)
  (lastActivity : option Z) (now : Z) (d : Db) : Db * list User.t :=
  let row :=
    User.mk (users_id_seq d)
      (SignUpData.username signUpData) (SignUpData.email signUpData)
      (SignUpData.password signUpData) (SignUpData.firstName signUpData)
      (SignUpData.lastName signUpData)
      avatar None None None None now lastActivity in
  (mkDb (users d ++ [row]) (users_id_seq d + 1) (messages d) (messages_id_seq d),
   [row]).

(** Modelled from the spec: [insert(messages).values(..).returning()] under
    the column defaults of the [messages] table: [id] takes the next value of
    the sequence, [createdAt] is the time of the insert. *)
Definition insert_messages (insertMessage : InsertMessage.t)
  (attachmentUrl : option string) (attachmentType : option AttachmentType)
  (attachmentName : option string) (updatedAt : option Z) (now : Z) (d : Db)
  : Db * list Message.t :=
  let row :=
    Message.mk (messages_id_seq d)
      (InsertMessage.content insertMessage) (InsertMessage.username insertMessage)
      (InsertMessage.userId insertMessage)
      attachmentUrl attachmentType attachmentName now updatedAt in
  (mkDb (users d) (users_id_seq d) (messages d ++ [row]) (messages_id_seq d + 1),
   [row]).

Definition set_messages (t : list Message.t) (d : Db) : Db :=
  mkDb (users d) (users_id_seq d) t (messages_id_seq d).

Definition set_users (t : list User.t) (d : Db) : Db :=
  mkDb t (users_id_seq d) (messages d) (messages_id_seq d).

(** ** Methods as state transformers that may throw *)

Inductive Exn :=
| ZodError (errors : list string)
  (* thrown by [schema.parse] *)
| ThemeNotFound (themeId : Z)
  (* [new Error(`Theme with ID ${themeId} not found`)] *)
| TypeError
  (* destructuring [undefined] *)
| DatabaseError.
  (* the error of a query that the database refuses *)

Definition M (A : Type) : Type := World -> (Exn + A) * World.

Definition ret {A : Type} (a : A) : M A := fun w => (inr a, w).

Definition bind {A B : Type} (m : M A) (k : A -> M B) : M B :=
  fun w =>
    match m w with
    | (inr a, w') => k a w'
    | (inl e, w') => (inl e, w')
    end.

Definition throw {A : Type} (e : Exn) : M A := fun w => (inl e, w).

Definition try_catch {A : Type} (m : M A) (handler : Exn -> M A) : M A :=
  fun w =>
    match m w with
    | (inr a, w') => (inr a, w')
    | (inl e, w') => handler e w'
    end.

Definition get_world : M World := fun w => (inr w, w).
Definition put_world (w' : World) : M unit := fun _ => (inr tt, w').

Notation "'let*' x := m 'in' k" := (bind m (fun x => k))
  (at level 10, x name, m at level 100, k at level 200).

(** [a[0]] *)
Definition first {A : Type} (a : list A) : option A := head a.

(** ** class PostgresStorage *)

Definition theme (id : Z) (name primaryColor secondaryColor backgroundColor
  messageBackgroundSelf messageBackgroundOther textColor : string)
  (isActive : bool) (createdAt : Z) : ChatTheme.t :=
  ChatTheme.mk id name primaryColor secondaryColor backgroundColor
    messageBackgroundSelf messageBackgroundOther textColor isActive createdAt.

(** The literal of [initializeThemes]; [clock i] is the time read by the
    [new Date()] of theme [i]. *)
Definition defaultThemes (clock : Z -> Z) : list ChatTheme.t :=
  [ theme 1 "Classic Blue" "#3b82f6" "#1e40af" "#f8fafc" "#3b82f6" "#e2e8f0"
      "#1e293b" true (clock 1);
    theme 2 "Sunset Orange" "#f59e0b" "#d97706" "#fef3c7" "#f59e0b" "#fed7aa"
      "#92400e" false (clock 2);
    theme 3 "Forest Green" "#10b981" "#059669" "#ecfdf5" "#10b981" "#d1fae5"
      "#064e3b" false (clock 3);
    theme 4 "Purple Dreams" "#8b5cf6" "#7c3aed" "#f3f4f6" "#8b5cf6" "#e5e7eb"
      "#374151" false (clock 4);
    theme 5 "Rose Gold" "#f43f5e" "#e11d48" "#fdf2f8" "#f43f5e" "#fce7f3"
      "#881337" false (clock 5);
    theme 6 "Dark Mode" "#6366f1" "#4f46e5" "#111827" "#6366f1" "#374151"
      "#f9fafb" false (clock 6) ].

(** [defaultThemes.forEach(theme => this.themes.set(theme.id, theme))] *)
Definition initializeThemes (clock : Z -> Z) (themes : gmap Z ChatTheme.t)
  : gmap Z ChatTheme.t :=
  List.fold_left (fun m theme => <[ChatTheme.id theme := theme]> m)
    (defaultThemes clock) themes.

(** The constructor; [this.themes.get(1)!] is the lookup, the assertion is
    erased at run time. *)
Definition constructor (clock : Z -> Z) : PostgresStorage :=
  let userActivity := (∅ : gmap Z Z) in
  let themes := initializeThemes clock ∅ in
  mkPostgresStorage userActivity (themes !! 1) themes.

Definition getUser (id : Z) : M (option User.t) :=
  let* w := get_world in
  let result := firstn 1 (drizzle.select_where (drizzle.eq User.id id) (users (db w))) in
  ret (first result).

Definition getUserByEmail (email : string) : M (option User.t) :=
  let* w := get_world in
  let result :=
    firstn 1 (drizzle.select_where (drizzle.eq User.email email) (users (db w))) in
  ret (first result).

Definition getUserByUsername (username : string) : M (option User.t) :=
  let* w := get_world in
  let result :=
    firstn 1 (drizzle.select_where (drizzle.eq User.username username) (users (db w))) in
  ret (first result).

(** [const { password, ...userWithoutPassword } = user] *)
Definition userWithoutPassword (user : User.t) : gmap string value :=
  delete "password"%string (User.to_obj user).

Definition getAllUsers : M (list (gmap string value)) :=
  let* w := get_world in
  let allUsers := users (db w) in
  ret (List.map userWithoutPassword allUsers).

(** [result[0]] is [None] when the array is empty ([undefined]). *)
Definition createUser (signUpData : SignUpData.t) (now : Z) : M (option User.t) :=
  let* w := get_world in
  let '(d, result) := insert_users signUpData None None now (db w) in
  let* _ := put_world (set_db d w) in
  ret (first result).

Section Engine.
Context (engine : drizzle.Engine).

Definition getMessages : M (list Message.t) :=
  let* w := get_world in
  let result := drizzle.orderBy engine Message.createdAt (messages (db w)) in
  ret result.

End Engine.

(** A 32-bit integer. *)
Definition int4 (n : Z) : bool := (-2147483648 <=? n) && (n <=? 2147483647).

(** Modelled from the spec: the integer columns of the [messages] table hold
    32-bit values, and so does the sequence of its [id]; the database
    refuses a row whose owner, or whose next id, is not one. *)
Definition accepts_message (insertMessage : InsertMessage.t) (d : Db) : bool :=
  int4 (InsertMessage.userId insertMessage) && int4 (messages_id_seq d).

(** [attachmentType || null] keeps a given type: its three values are
    non-empty strings.  The [catch] block throws the error of a refused
    insert again. *)
Definition createMessage (insertMessage : InsertMessage.t) (now : Z)
  : M (option Message.t) :=
  try_catch
    (let* w := get_world in
     if accepts_message insertMessage (db w)
     then
       let '(d, result) :=
         insert_messages insertMessage
           (or_null (InsertMessage.attachmentUrl insertMessage))
           (InsertMessage.attachmentType insertMessage)
           (or_null (InsertMessage.attachmentName insertMessage))
           None now (db w) in
       let* _ := put_world (set_db d w) in
       ret (first result)
     else throw DatabaseError)
    (fun error => throw error).

(** [{ ...updates, updatedAt: new Date() }] applied to a row. *)
Definition set_updates (updates : UpdateMessage.t) (now : Z) (m : Message.t)
  : Message.t :=
  Message.mk (Message.id m) (UpdateMessage.content updates) (Message.username m)
    (Message.userId m) (Message.attachmentUrl m) (Message.attachmentType m)
    (Message.attachmentName m) (Message.createdAt m) (Some now).

(** The condition both [updateMessage] and [deleteMessage] pass to [where]:
    [eq(messages.id, id) && eq(messages.userId, userId)]. *)
Definition owned_message (id userId : Z) : drizzle.SQL Message.t :=
  drizzle.js_and (drizzle.eq Message.id id) (drizzle.eq Message.userId userId).

(** [result[0] || null] is [None] for [null]. *)
Definition updateMessage (id userId : Z) (updates : UpdateMessage.t) (now : Z)
  : M (option Message.t) :=
  let* w := get_world in
  let '(t, result) :=
    drizzle.update_set_where (set_updates updates now) (owned_message id userId)
      (messages (db w)) in
  let* _ := put_world (set_db (set_messages t (db w)) w) in
  ret (first result).

Definition deleteMessage (id userId : Z) : M bool :=
  let* w := get_world in
  let '(t, result) :=
    drizzle.delete_where (owned_message id userId) (messages (db w)) in
  let* _ := put_world (set_db (set_messages t (db w)) w) in
  ret (bool_decide (0 < Z.of_nat (length result))).

Definition getMessageById (id : Z) : M (option Message.t) :=
  let* w := get_world in
  let result :=
    firstn 1 (drizzle.select_where (drizzle.eq Message.id id) (messages (db w))) in
  ret (first result).

Definition getActiveTheme : M (option ChatTheme.t) :=
  let* w := get_world in
  ret (currentTheme (this w)).

(** [themeId] is an integer; a number that is not one is no key of the
    catalog either and takes the same branch as an integer outside it. *)
Definition setActiveTheme (themeId : Z) : M ChatTheme.t :=
  let* w := get_world in
  match themes (this w) !! themeId with
  | None => throw (ThemeNotFound themeId)
  | Some theme =>
      let* _ := put_world
        (set_this (mkPostgresStorage (userActivity (this w)) (Some theme)
                     (themes (this w))) w) in
      ret theme
  end.

(** [!lastActive] for a [Date | undefined]. *)
Definition js_not (lastActive : option Z) : bool :=
  match lastActive with
  | Some _ => false
  | None => true
  end.

(** [lastActive > fiveMinutesAgo], evaluated only when [lastActive] is a
    date. *)
Definition date_gt (lastActive : option Z) (d : Z) : bool :=
  match lastActive with
  | Some t => bool_decide (d < t)
  | None => false
  end.

Definition isUserActive (now : Z) (userId : Z) (s : PostgresStorage) : bool :=
  let fiveMinutesAgo := now - 5 * 60 * 1000 in
  let lastActive := userActivity s !! userId in
  js_not lastActive || date_gt lastActive fiveMinutesAgo.

(** The [forEach] loop runs synchronously; its clock reads are one instant
    [now]. *)
Definition getUsersCount (now : Z) : M Z :=
  let* w := get_world in
  let allUsers := users (db w) in
  let activeRegisteredUsers :=
    List.fold_left
      (fun n user => if isUserActive now (User.id user) (this w) then n + 1 else n)
      allUsers 0 in
  ret activeRegisteredUsers.

Definition getOnlineUsers : M (list (gmap string value)) :=
  let* w := get_world in
  let allUsers := users (db w) in
  ret (List.map
         (fun user =>
            let lastActive := userActivity (this w) !! User.id user in
            <["lastActivity"%string := date_or_null lastActive]>
              (userWithoutPassword user))
         allUsers).

(** [{ lastActivity: new Date() }] applied to a row of [users]. *)
Definition set_lastActivity (now : Z) (u : User.t) : User.t :=
  User.mk (User.id u) (User.username u) (User.email u) (User.password u)
    (User.firstName u) (User.lastName u) (User.avatar u) (User.bio u)
    (User.location u) (User.website u) (User.dateOfBirth u) (User.createdAt u)
    (Some now).

(** [now] and [now'] are the two clock reads, for the map and for the
    database. *)
Definition updateUserActivity (userId : Z) (now now' : Z) : M unit :=
  let* w := get_world in
  let s := mkPostgresStorage (<[userId := now]> (userActivity (this w)))
             (currentTheme (this w)) (themes (this w)) in
  let* _ := put_world (set_this s w) in
  let* w := get_world in
  let '(t, _) :=
    drizzle.update_set_where (set_lastActivity now') (drizzle.eq User.id userId)
      (users (db w)) in
  put_world (set_db (set_users t (db w)) w).

Definition getTotalUsersCount : M Z :=
  let* w := get_world in
  ret (Z.of_nat (length (users (db w)))).

(** ** class MemStorage

    The in-memory storage class that the sources keep beside the Postgres
    one; here its message table with the edit and the delete. *)

Module MemStorage.

Record t := mk { messages : gmap Z Message.t; currentMessageId : Z }.

Definition updateMessage (id userId : Z) (updates : UpdateMessage.t) (now : Z) (s : t)
  : option Message.t * t :=
  match messages s !! id with
  | None => (None, s)
  | Some message =>
      if bool_decide (Message.userId message <> userId) then (None, s)
      else
        let updatedMessage := set_updates updates now message in
        (Some updatedMessage,
         mk (<[id := updatedMessage]> (messages s)) (currentMessageId s))
  end.

(** [Map.delete] returns whether the key was present. *)
Definition deleteMessage (id userId : Z) (s : t) : bool * t :=
  match messages s !! id with
  | None => (false, s)
  | Some message =>
      if bool_decide (Message.userId message <> userId) then (false, s)
      else
        (bool_decide (is_Some (messages s !! id)),
         mk (delete id (messages s)) (currentMessageId s))
  end.

End MemStorage.

(** ** The sign-up route *)

Inductive Json :=
| JObject (o : gmap string value)
| JValidationError (errors : list string).
  (* [{ message: "Validation error", errors: error.errors }] *)

Record Response := mkResponse { status : Z; json : Json }.

Definition message_json (message : string) : Json :=
  JObject {[ "message"%string := VStr message ]}.

Section Routes.
(** [signUpSchema.parse] of [@shared/schema], whose declaration is not part
    of the sources: it returns the validated data or throws a [ZodError]. *)
Context {Body : Type} (signUpSchema_parse : Body -> list string + SignUpData.t).

Definition parse (body : Body) : M SignUpData.t :=
  match signUpSchema_parse body with
  | inr validatedData => ret validatedData
  | inl errors => throw (ZodError errors)
  end.

(** [const { password, ...userWithoutPassword } = user] for the value
    [createUser] returned. *)
Definition destructure (user : option User.t) : M (gmap string value) :=
  match user with
  | Some u => ret (userWithoutPassword u)
  | None => throw TypeError
  end.

(** [app.post("/api/auth/signup", ...)], when no other request is handled
    between its [await]s. *)
Definition signup (body : Body) (now : Z) : M Response :=
  try_catch
    (let* validatedData := parse body in
     let* existingUserByEmail := getUserByEmail (SignUpData.email validatedData) in
     match existingUserByEmail with
     | Some _ => ret (mkResponse 400 (message_json "User with this email already exists"))
     | None =>
         let* existingUserByUsername :=
           getUserByUsername (SignUpData.username validatedData) in
         match existingUserByUsername with
         | Some _ => ret (mkResponse 400 (message_json "Username already taken"))
         | None =>
             let* user := createUser validatedData now in
             let* userWithoutPassword := destructure user in
             ret (mkResponse 201 (JObject userWithoutPassword))
         end
     end)
    (fun error =>
       match error with
       | ZodError errors => ret (mkResponse 400 (JValidationError errors))
       | _ => ret (mkResponse 500 (message_json "Failed to create account"))
       end).

End Routes.

(** ** Reachable states *)

Inductive Call :=
| CreateUser (signUpData : SignUpData.t) (now : Z)
| CreateMessage (insertMessage : InsertMessage.t) (now : Z)
| UpdateMessage (id userId : Z) (updates : UpdateMessage.t) (now : Z)
| DeleteMessage (id userId : Z)
| SetActiveTheme (themeId : Z)
| UpdateUserActivity (userId : Z) (now now' : Z).

(** The state a call leaves behind. *)
Definition exec (c : Call) (w : World) : World :=
  match c with
  | CreateUser signUpData now => snd (createUser signUpData now w)
  | CreateMessage insertMessage now => snd (createMessage insertMessage now w)
  | UpdateMessage id userId updates now => snd (updateMessage id userId updates now w)
  | DeleteMessage id userId => snd (deleteMessage id userId w)
  | SetActiveTheme themeId => snd (setActiveTheme themeId w)
  | UpdateUserActivity userId now now' => snd (updateUserActivity userId now now' w)
  end.

Definition empty_db : Db := mkDb [] 1 [] 1.

(** The server boots on an empty database; calls arrive in any order; the
    process may restart, which builds a new storage object over the same
    database. *)
Inductive reachable : World -> Prop :=
| reachable_boot clock : reachable (mkWorld empty_db (constructor clock))
| reachable_call c w : reachable w -> reachable (exec c w)
| reachable_restart clock w :
    reachable w -> reachable (mkWorld (db w) (constructor clock)).

Definition run (calls : list Call) (w : World) : World :=
  List.fold_left (fun w c => exec c w) calls w.

(** ** The rest of the storage class and of the routes *)

Module SignInData.
(** Modelled from the spec: the type [SignInData] of [@shared/schema]. *)
Record t := mk { email : string; password : string }.
End SignInData.

(** [user.password !== credentials.password] compares two strings. *)
Definition authenticateUser (credentials : SignInData.t) : M (option User.t) :=
  let* user := getUserByEmail (SignInData.email credentials) in
  match user with
  | None => ret None
  | Some user =>
      if bool_decide (User.password user <> SignInData.password credentials)
      then ret None
      else ret (Some user)
  end.

(** What the handlers of the message, count and theme routes send. *)
Inductive Sent :=
| SentJson (j : Json)
| SentMessages (messages : list Message.t)
| SentMessage (message : option Message.t)
| SentNumber (n : Z)
| SentTheme (theme : option ChatTheme.t)
| SentNothing.
  (* [res.status(204).send()] *)

Record Reply := mkReply { code : Z; sent : Sent }.

Definition reply_message (code : Z) (message : string) : Reply :=
  mkReply code (SentJson (message_json message)).

(** [schema.parse(body)] for a schema of [@shared/schema]. *)
Definition parse_schema {Body A : Type} (schema : Body -> list string + A)
  (body : Body) : M A :=
  match schema body with
  | inr validatedData => ret validatedData
  | inl errors => throw (ZodError errors)
  end.

(** The [catch] block the message routes share: a validation error is a
    400, anything else a 500 with the route's message. *)
Definition catch_reply (failed : string) (error : Exn) : M Reply :=
  match error with
  | ZodError errors => ret (mkReply 400 (SentJson (JValidationError errors)))
  | _ => ret (reply_message 500 failed)
  end.

Section MoreRoutes.
(** The schemas are declared in [@shared/schema]; [Number_toString] is the
    text the template literal gives a number, [library_message] the message
    of an error raised by a library. *)
Context {Body : Type}
  (signInSchema_parse : Body -> list string + SignInData.t)
  (insertMessageSchema_parse : Body -> list string + InsertMessage.t)
  (updateMessageSchema_parse : Body -> list string + UpdateMessage.t)
  (Number_toString : Z -> string)
  (library_message : Exn -> string).

(** [app.post("/api/auth/signin", ...)] *)
Definition signin (body : Body) : M Response :=
  try_catch
    (let* validatedData := parse_schema signInSchema_parse body in
     let* user := authenticateUser validatedData in
     match user with
     | None => ret (mkResponse 401 (message_json "Invalid email or password"))
     | Some user => ret (mkResponse 200 (JObject (userWithoutPassword user)))
     end)
    (fun error =>
       match error with
       | ZodError errors => ret (mkResponse 400 (JValidationError errors))
       | _ => ret (mkResponse 500 (message_json "Failed to sign in"))
       end).

(** [app.get("/api/users/:id", ...)]; [userId] is the integer that
    [parseInt(req.params.id)] returned. *)
Definition get_user (userId : Z) : M Response :=
  try_catch
    (let* user := getUser userId in
     match user with
     | None => ret (mkResponse 404 (message_json "User not found"))
     | Some user => ret (mkResponse 200 (JObject (userWithoutPassword user)))
     end)
    (fun _ => ret (mkResponse 500 (message_json "Failed to fetch user"))).



(** [app.patch("/api/messages/:id", ...)]; [messageId] is the integer that
    [parseInt(req.params.id)] returned, [userId] the number under the key
    [userId] of the body, if there is one, and [updateData] the rest of the
    body.  [!userId] holds for a missing [userId] and for 0. *)
Definition patch_message (messageId : Z) (userId : option Z) (updateData : Body)
  (now : Z) : M Reply :=
  try_catch
    (match userId with
     | None => ret (reply_message 400 "User ID is required")
     | Some userId =>
         if bool_decide (userId = 0)
         then ret (reply_message 400 "User ID is required")
         else
           let* validatedData := parse_schema updateMessageSchema_parse updateData in
           let* updatedMessage := updateMessage messageId userId validatedData now in
           match updatedMessage with
           | None => ret (reply_message 404 "Message not found or unauthorized")
           | Some m => ret (mkReply 200 (SentMessage (Some m)))
           end
     end)
    (catch_reply "Failed to update message").

(** [app.delete("/api/messages/:id", ...)], with [messageId] and [userId] as
    for the patch. *)
Definition delete_message (messageId : Z) (userId : option Z) : M Reply :=
  try_catch
    (match userId with
     | None => ret (reply_message 400 "User ID is required")
     | Some userId =>
         if bool_decide (userId = 0)
         then ret (reply_message 400 "User ID is required")
         else
           let* deleted := deleteMessage messageId userId in
           if deleted
           then ret (mkReply 204 SentNothing)
           else ret (reply_message 404 "Message not found or unauthorized")
     end)
    (fun _ => ret (reply_message 500 "Failed to delete message")).

(** [app.get("/api/chat/theme", ...)] *)
Definition get_theme : M Reply :=
  try_catch
    (let* theme := getActiveTheme in
     ret (mkReply 200 (SentTheme theme)))
    (fun _ => ret (reply_message 500 "Failed to fetch theme")).

(** [error.message] in the theme route. *)
Definition error_message (error : Exn) : string :=
  match error with
  | ThemeNotFound themeId =>
      "Theme with ID " +:+ Number_toString themeId +:+ " not found"
  | _ => library_message error
  end.

(** [app.post("/api/chat/theme", ...)]; [themeId] is the value under the key
    [themeId] of the body, if there is one.  [!themeId || typeof themeId !==
    'number'] lets a number other than 0 through and nothing else. *)
Definition post_theme (themeId : option value) : M Reply :=
  try_catch
    (match themeId with
     | Some (VNum themeId) =>
         if bool_decide (themeId = 0)
         then ret (reply_message 400 "Theme ID is required and must be a number")
         else
           let* theme := setActiveTheme themeId in
           ret (mkReply 200 (SentTheme (Some theme)))
     | _ => ret (reply_message 400 "Theme ID is required and must be a number")
     end)
    (fun error => ret (reply_message 500 (error_message error))).

End MoreRoutes.

(** The requests the server handles while a handler waits at an [await]:
    their storage calls, in the order they run. *)
Definition meanwhile (others : list Call) : M unit :=
  fun w => (inr tt, run others w).

(** [app.post("/api/auth/signup", ...)] with the other requests: [others1]
    run while the handler waits for the look-up by email, [others2] while it
    waits for the look-up by username.  Requests that run before the first
    look-up or after the insert are calls before or after the handler. *)
Definition signup_interleaved {Body : Type}
  (signUpSchema_parse : Body -> list string + SignUpData.t)
  (body : Body) (now : Z) (others1 others2 : list Call) : M Response :=
  try_catch
    (let* validatedData := parse_schema signUpSchema_parse body in
     let* existingUserByEmail := getUserByEmail (SignUpData.email validatedData) in
     let* _ := meanwhile others1 in
     match existingUserByEmail with
     | Some _ => ret (mkResponse 400 (message_json "User with this email already exists"))
     | None =>
         let* existingUserByUsername :=
           getUserByUsername (SignUpData.username validatedData) in
         let* _ := meanwhile others2 in
         match existingUserByUsername with
         | Some _ => ret (mkResponse 400 (message_json "Username already taken"))
         | None =>
             let* user := createUser validatedData now in
             let* userWithoutPassword := destructure user in
             ret (mkResponse 201 (JObject userWithoutPassword))
         end
     end)
    (fun error =>
       match error with
       | ZodError errors => ret (mkResponse 400 (JValidationError errors))
       | _ => ret (mkResponse 500 (message_json "Failed to create account"))
       end).

(** ** The online-users popover of the client *)

(** [users.filter(user => user.isOnline !== false)] *)
Definition onlineUsers (users : list (gmap string value)) : list (gmap string value) :=
  List.filter (fun user => bool_decide (user !! "isOnline"%string <> Some (VBool false)))
    users.

(** [users.filter(user => user.isOnline === false)] *)
Definition offlineUsers (users : list (gmap string value)) : list (gmap string value) :=
  List.filter (fun user => bool_decide (user !! "isOnline"%string = Some (VBool false)))
    users.

Section LastSeen.
(** [Number_toString] is the text the template literal gives a number,
    [format_MMM_d] the [format(lastSeen, "MMM d")] of date-fns. *)
Context (Number_toString : Z -> string) (format_MMM_d : Z -> string).

(** [lastActivity] is the time the string denotes, [None] when the string is
    missing or empty; [now] is the clock read.  [Math.floor] of the quotient
    is the division of [Z]. *)
Definition getLastSeenText (now : Z) (lastActivity : option Z) : string :=
  match lastActivity with
  | None => "Just now"
  | Some lastSeen =>
      let diffInMinutes := (now - lastSeen) / (1000 * 60) in
      if bool_decide (diffInMinutes < 1) then "Just now"
      else if bool_decide (diffInMinutes < 60)
      then Number_toString diffInMinutes +:+ "m ago"
      else if bool_decide (diffInMinutes < 1440)
      then Number_toString (diffInMinutes / 60) +:+ "h ago"
      else format_MMM_d lastSeen
  end.

End LastSeen.

(** ** Invariants of the reachable states *)

Definition db_ok (d : Db) : Prop :=
  Forall (fun u => User.id u < users_id_seq d) (users d) /\
  Forall (fun m => Message.id m < messages_id_seq d) (messages d) /\
  List.NoDup (List.map Message.id (messages d)).

Definition storage_ok (s : PostgresStorage) : Prop :=
  exists clock,
    themes s = initializeThemes clock ∅ /\
    exists k, 1 <= k <= 6 /\ currentTheme s = themes s !! k.

(** ** Properties named by the spec *)

(** The spec's words: a user is active when no heartbeat record exists for
    the user, or the last heartbeat is less than five minutes old. *)
Definition active_by_spec (now : Z) (s : PostgresStorage) (userId : Z) : Prop :=
  userActivity s !! userId = None \/
  exists lastHeartbeat,
    userActivity s !! userId = Some lastHeartbeat /\
    now - lastHeartbeat < 5 * 60 * 1000.

(** ** Sample states *)

Definition boot : World := mkWorld empty_db (constructor (fun _ => 0)).

Definition says (content username : string) (userId : Z) : InsertMessage.t :=
  InsertMessage.mk content username userId None None None.

Definition posted (id : Z) (content username : string) (userId createdAt : Z)
  (updatedAt : option Z) : Message.t :=
  Message.mk id content username userId None None None createdAt updatedAt.

(** Ann (user 1) posts, then Bob (user 2) posts. *)
Definition two_owners : World :=
  run [CreateMessage (says "hello" "ann" 1) 10;
       CreateMessage (says "hi" "bob" 2) 20] boot.

(** Ann (user 1) posts twice. *)
Definition one_owner : World :=
  run [CreateMessage (says "hello" "ann" 1) 10;
       CreateMessage (says "again" "ann" 1) 20] boot.

(** Ann and Bob post at the same instant, Ann first. *)
Definition tied : World :=
  run [CreateMessage (says "hello" "ann" 1) 10;
       CreateMessage (says "hi" "bob" 2) 10] boot.

(** Then Ann edits her message. *)
Definition tied_edited : World :=
  exec (UpdateMessage 1 1 (UpdateMessage.mk "hello!") 30) tied.

(** Ann has signed up, and sent a heartbeat at time 1000. *)
Definition ann : SignUpData.t := SignUpData.mk "a" "a@x.com" "secret" "Ann" "Lee".

Definition ann_online : World :=
  run [CreateUser ann 0; UpdateUserActivity 1 1000 1001] boot.

(** A parser for the examples: the body is the data, and it is accepted when
    no field is empty. *)
Definition parse_nonempty (body : SignUpData.t) : list string + SignUpData.t :=
  if bool_decide (SignUpData.username body <> EmptyString /\
                  SignUpData.email body <> EmptyString /\
                  SignUpData.password body <> EmptyString)
  then inr body
  else inl ["Required"%string].

(** * Properties *)

(** ** The database engine

    [keep_ties] sorts by the key and returns rows of equal key in heap
    order.  It meets the contract of [ORDER BY]. *)

Section InsertionSortLaws.
Context {R : Type} (key : R -> Z).

Lemma insert_row_Permutation x l : Permutation (insert_row key x l) (x :: l).
Proof.
  induction l as [|y l IH]; simpl; [reflexivity|].
  destruct (key x <=? key y); [reflexivity|].
  rewrite IH. apply perm_swap.
Qed.

Lemma sort_rows_Permutation t : Permutation (sort_rows key t) t.
Proof.
  induction t as [|x t IH]; simpl; [reflexivity|].
  rewrite insert_row_Permutation. by constructor.
Qed.

Lemma insert_row_Sorted x l :
  StronglySorted (fun a c => key a <= key c) l ->
  StronglySorted (fun a c => key a <= key c) (insert_row key x l).
Proof.
  induction 1 as [|y l Hs IH Hy]; simpl.
  - repeat constructor.
  - destruct (key x <=? key y) eqn:E.
    + assert (key x <= key y) by lia.
      constructor; [by constructor|].
      constructor; [done|].
      eapply Forall_impl; [exact Hy|]. simpl. intros; lia.
    + assert (key y <= key x) by lia.
      constructor; [done|].
      eapply Permutation_Forall; [symmetry; apply insert_row_Permutation|].
      by constructor.
Qed.

Lemma sort_rows_Sorted t :
  StronglySorted (fun a c => key a <= key c) (sort_rows key t).
Proof.
  induction t as [|x t IH]; simpl; [constructor|].
  by apply insert_row_Sorted.
Qed.

End InsertionSortLaws.

Definition keep_ties : drizzle.Engine :=
  drizzle.mkEngine (fun R key => sort_rows key)
    (fun R key => sort_rows_Permutation key)
    (fun R key => sort_rows_Sorted key).

(** ** What each method computes *)

Lemma createUser_unfold signUpData now w :
  createUser signUpData now w =
  let r := insert_users signUpData None None now (db w) in
  (inr (first (snd r)), set_db (fst r) w).
Proof. reflexivity. Qed.

Lemma createMessage_unfold insertMessage now w :
  createMessage insertMessage now w =
  if accepts_message insertMessage (db w)
  then
    let r := insert_messages insertMessage
               (or_null (InsertMessage.attachmentUrl insertMessage))
               (InsertMessage.attachmentType insertMessage)
               (or_null (InsertMessage.attachmentName insertMessage))
               None now (db w) in
    (inr (first (snd r)), set_db (fst r) w)
  else (inl DatabaseError, w).
Proof.
  unfold createMessage, try_catch, bind, get_world.
  by destruct (accepts_message insertMessage (db w)).
Qed.

(** The condition that reaches the database names the owner only. *)
Lemma owned_message_test id userId m :
  drizzle.test (owned_message id userId) m = bool_decide (Message.userId m = userId).
Proof. reflexivity. Qed.

Lemma updateMessage_unfold id userId updates now w :
  updateMessage id userId updates now w =
  let owned := fun m => bool_decide (Message.userId m = userId) in
  (inr (first (List.map (set_updates updates now) (List.filter owned (messages (db w))))),
   set_db (set_messages
             (List.filter (fun m => negb (owned m)) (messages (db w)) ++
              List.map (set_updates updates now) (List.filter owned (messages (db w))))
             (db w)) w).
Proof. reflexivity. Qed.

Lemma deleteMessage_unfold id userId w :
  deleteMessage id userId w =
  let owned := fun m => bool_decide (Message.userId m = userId) in
  (inr (bool_decide (0 < Z.of_nat (length (List.filter owned (messages (db w)))))),
   set_db (set_messages (List.filter (fun m => negb (owned m)) (messages (db w)))
             (db w)) w).
Proof. reflexivity. Qed.

Lemma getMessageById_unfold id w :
  getMessageById id w =
  (inr (first (firstn 1 (List.filter (fun m => bool_decide (Message.id m = id))
                           (messages (db w))))), w).
Proof. reflexivity. Qed.

Lemma first_firstn_1 {A : Type} (l : list A) : first (firstn 1 l) = first l.
Proof. by destruct l. Qed.

(** ** Invariants of the reachable states *)


Lemma NoDup_map_filter {A B : Type} (f : A -> B) (p : A -> bool) (l : list A) :
  List.NoDup (List.map f l) -> List.NoDup (List.map f (List.filter p l)).
Proof.
  induction l as [|a l IH]; simpl; [done|].
  intros Hnd. apply List.NoDup_cons_iff in Hnd as [Hnotin Hnd].
  destruct (p a); simpl; [|by apply IH].
  apply List.NoDup_cons; [|by apply IH].
  intros Hin. apply Hnotin.
  apply in_map_iff in Hin as (x & <- & Hx).
  apply filter_In in Hx as [Hx _]. by apply in_map.
Qed.

Lemma filter_negb_Permutation {A : Type} (p : A -> bool) (l : list A) :
  Permutation (List.filter (fun a => negb (p a)) l ++ List.filter p l) l.
Proof.
  induction l as [|a l IH]; simpl; [done|].
  destruct (p a); simpl.
  - rewrite <- Permutation_middle. by constructor.
  - by constructor.
Qed.

(** An update whose new versions keep a key keeps the keys of the table, up
    to the order of the rows. *)
Lemma updated_keys_Permutation {A K : Type} (key : A -> K) (f : A -> A)
  (p : A -> bool) (l : list A) :
  (forall a, key (f a) = key a) ->
  Permutation
    (List.map key (List.filter (fun a => negb (p a)) l ++ List.map f (List.filter p l)))
    (List.map key l).
Proof.
  intros Hkey. rewrite List.map_app, List.map_map.
  rewrite (List.map_ext (fun a => key (f a)) key Hkey), <- List.map_app.
  apply Permutation_map, filter_negb_Permutation.
Qed.

Lemma updated_rows_In {A : Type} (f : A -> A) (p : A -> bool) (l : list A) (a : A) :
  In a (List.filter (fun a => negb (p a)) l ++ List.map f (List.filter p l)) <->
  (In a l /\ p a = false) \/ (exists a0, In a0 l /\ p a0 = true /\ a = f a0).
Proof.
  rewrite in_app_iff, filter_In, negb_true_iff, in_map_iff. split.
  - intros [?|(a0 & <- & Hin)]; [by left|]. apply filter_In in Hin as [? ?].
    right. by exists a0.
  - intros [?|(a0 & Hin & Hp & ->)]; [by left|]. right. exists a0.
    split; [done|]. by apply filter_In.
Qed.

Lemma db_ok_empty : db_ok empty_db.
Proof. repeat split; constructor. Qed.

Lemma db_ok_exec c w : db_ok (db w) -> db_ok (db (exec c w)).
Proof.
  intros (Hu & Hm & Hnd). destruct c as [d now|d now|id uid upd now|id uid|t|uid now now']; cbn [exec].
  - (* createUser *)
    rewrite createUser_unfold. repeat split; simpl; [|done|done].
    apply Forall_app. split.
    + eapply Forall_impl; [exact Hu|]. simpl. intros; lia.
    + repeat constructor. simpl. lia.
  - (* createMessage *)
    rewrite createMessage_unfold.
    destruct (accepts_message d (db w)); [|by repeat split].
    repeat split; simpl; [done| |].
    + apply Forall_app. split.
      * eapply Forall_impl; [exact Hm|]. simpl. intros; lia.
      * repeat constructor. simpl. lia.
    + rewrite List.map_app. simpl.
      apply NoDup_ListNoDup, NoDup_app. repeat split.
      * by apply NoDup_ListNoDup.
      * intros x Hx Hx'. apply list_elem_of_In in Hx.
        apply list_elem_of_singleton in Hx'. subst x.
        apply in_map_iff in Hx as (m & Hid & Hin).
        rewrite Forall_forall in Hm. apply list_elem_of_In, Hm in Hin. lia.
      * apply NoDup_singleton.
  - (* updateMessage *)
    rewrite updateMessage_unfold. simpl. repeat split; simpl; [done| |].
    + apply Forall_forall. intros m Hin. apply list_elem_of_In in Hin.
      rewrite Forall_forall in Hm.
      apply updated_rows_In in Hin as [[Hin _]|(m0 & Hin & _ & ->)];
        by apply list_elem_of_In, Hm in Hin.
    + eapply Permutation_NoDup; [|exact Hnd].
      symmetry. by apply updated_keys_Permutation.
  - (* deleteMessage *)
    rewrite deleteMessage_unfold. simpl. repeat split; simpl; [done| |].
    + apply Forall_forall. intros m Hin. apply list_elem_of_In in Hin.
      apply filter_In in Hin as [Hin _].
      rewrite Forall_forall in Hm. by apply Hm, list_elem_of_In.
    + by apply NoDup_map_filter.
  - (* setActiveTheme *)
    unfold setActiveTheme, bind, get_world. simpl.
    destruct (themes (this w) !! t); simpl; by repeat split.
  - (* updateUserActivity *)
    repeat split; simpl; [|done|done].
    apply Forall_forall. intros u Hin. apply list_elem_of_In in Hin.
    rewrite Forall_forall in Hu.
    apply updated_rows_In in Hin as [[Hin _]|(u0 & Hin & _ & ->)];
      by apply list_elem_of_In, Hu in Hin.
Qed.

Lemma reachable_db_ok w : reachable w -> db_ok (db w).
Proof.
  induction 1 as [clock|c w _ IH|clock w _ IH]; simpl.
  - apply db_ok_empty.
  - by apply db_ok_exec.
  - exact IH.
Qed.

Lemma reachable_run calls w : reachable w -> reachable (run calls w).
Proof.
  revert w. induction calls as [|c calls IH]; simpl; [done|].
  intros w Hw. apply IH. by constructor.
Qed.

Lemma NoDup_map_inj {A B : Type} (f : A -> B) (l : list A) (a b : A) :
  List.NoDup (List.map f l) -> In a l -> In b l -> f a = f b -> a = b.
Proof.
  induction l as [|x l IH]; simpl; [done|].
  intros Hnd Ha Hb Hab. apply List.NoDup_cons_iff in Hnd as [Hnotin Hnd].
  destruct Ha as [->|Ha], Hb as [->|Hb]; [done| | |by apply IH].
  - exfalso. apply Hnotin. rewrite Hab. by apply in_map.
  - exfalso. apply Hnotin. rewrite <- Hab. by apply in_map.
Qed.


(** ** Messages: edits and deletes *)

(** An edit leaves the messages of every other owner as they are. *)
Lemma updateMessage_other_owner_kept id userId updates now w m :
  In m (messages (db w)) -> Message.userId m <> userId ->
  In m (messages (db (snd (updateMessage id userId updates now w)))).
Proof.
  intros Hin Hne. rewrite updateMessage_unfold. cbv zeta. cbn [snd].
  apply (updated_rows_In (set_updates updates now)
           (fun m => bool_decide (Message.userId m = userId))).
  left. split; [done|]. by apply bool_decide_eq_false_2.
Qed.

(** An edit returns no row exactly when the caller owns no message. *)
Lemma updateMessage_null_iff id userId updates now w :
  fst (updateMessage id userId updates now w) = inr None <->
  forall m, In m (messages (db w)) -> Message.userId m <> userId.
Proof.
  rewrite updateMessage_unfold. simpl. split.
  - intros Hnone m Hin Heq.
    assert (In m (List.filter (fun m => bool_decide (Message.userId m = userId))
                    (messages (db w)))) as Hf.
    { apply filter_In. split; [done|]. by apply bool_decide_eq_true_2. }
    destruct (List.filter _ (messages (db w))); [done|]. simpl in Hnone. congruence.
  - intros Hall.
    destruct (List.filter (fun m => bool_decide (Message.userId m = userId))
                (messages (db w))) as [|m l] eqn:E; [done|].
    exfalso. assert (In m (m :: l)) as Hin by (by left).
    rewrite <- E in Hin. apply filter_In in Hin as [Hin Ht].
    apply bool_decide_eq_true_1 in Ht. by apply (Hall m).
Qed.

(** C1, at a failing input.  Ann (user 1) owns message 1 and Bob (user 2)
    owns message 2.  [updateMessage(1, 2, {content: "edited"})], Bob editing
    Ann's message, does not return null: the condition that reaches the
    database is [userId = 2] alone, so the call rewrites Bob's own message 2
    and returns it.  Ann's message is left as it was. *)
Theorem updateMessage_by_other_user_returns_a_row :
  let m := posted 1 "hello" "ann" 1 10 None in
  let r := updateMessage (Message.id m) 2 (UpdateMessage.mk "edited") 30 two_owners in
  reachable two_owners /\
  In m (messages (db two_owners)) /\
  Message.userId m <> 2 /\
  fst r = inr (Some (posted 2 "edited" "bob" 2 20 (Some 30))) /\
  messages (db (snd r)) = [m; posted 2 "edited" "bob" 2 20 (Some 30)].
Proof.
  repeat split.
  - apply reachable_run. constructor.
  - by left.
  - done.
Qed.

(** C2, at a failing input.  Ann (user 1) owns messages 1 and 2.
    [deleteMessage(1, 1)] removes both: message 2, whose id is not 1, is
    gone after the call. *)
Theorem deleteMessage_removes_other_messages_of_owner :
  let m := posted 1 "hello" "ann" 1 10 None in
  let m' := posted 2 "again" "ann" 1 20 None in
  let r := deleteMessage (Message.id m) (Message.userId m) one_owner in
  reachable one_owner /\
  messages (db one_owner) = [m; m'] /\
  Message.id m' <> Message.id m /\
  fst r = inr true /\
  messages (db (snd r)) = [] /\
  fst (getMessageById (Message.id m') (snd r)) = inr None.
Proof.
  repeat split.
  - apply reachable_run. constructor.
  - done.
Qed.

(** A delete leaves the messages of every other owner as they are. *)
Lemma deleteMessage_other_owner_kept id userId w m :
  In m (messages (db w)) -> Message.userId m <> userId ->
  In m (messages (db (snd (deleteMessage id userId w)))).
Proof.
  intros Hin Hne. rewrite deleteMessage_unfold. simpl.
  apply filter_In. split; [done|]. by rewrite bool_decide_eq_false_2.
Qed.

(** The in-memory class does what the guard of the Postgres class was
    written for: an edit by another user returns null and changes nothing,
    and a delete by the owner removes the one id. *)
Lemma mem_updateMessage_other_user s id m userId updates now :
  MemStorage.messages s !! id = Some m -> Message.userId m <> userId ->
  MemStorage.updateMessage id userId updates now s = (None, s).
Proof.
  intros Hm Hne. unfold MemStorage.updateMessage.
  by rewrite Hm, bool_decide_eq_true_2.
Qed.

(** In the in-memory class a delete by the owner of a stored message returns
    true, removes that id and leaves every other id as it was. *)
Lemma mem_deleteMessage_own s id m :
  MemStorage.messages s !! id = Some m ->
  let r := MemStorage.deleteMessage id (Message.userId m) s in
  fst r = true /\
  MemStorage.messages (snd r) !! id = None /\
  forall id', id' <> id ->
    MemStorage.messages (snd r) !! id' = MemStorage.messages s !! id'.
Proof.
  intros Hm. unfold MemStorage.deleteMessage. rewrite Hm.
  rewrite bool_decide_eq_false_2 by (intros Hne; by apply Hne). simpl.
  split; [done|].
  split; [apply lookup_delete_eq|].
  intros id' Hne. by apply lookup_delete_ne.
Qed.

(** C3: in every reachable state, for every stored message [m],
    [deleteMessage(m.id, m.userId)] returns true and a following
    [getMessageById(m.id)] finds no record. *)
Theorem deleteMessage_own_then_not_found (w : World) (m : Message.t) :
  reachable w -> In m (messages (db w)) ->
  let r := deleteMessage (Message.id m) (Message.userId m) w in
  fst r = inr true /\
  getMessageById (Message.id m) (snd r) = (inr None, snd r).
Proof.
  intros Hw Hin. apply reachable_db_ok in Hw as (_ & _ & Hnd).
  cbv zeta. rewrite deleteMessage_unfold. cbv zeta. cbn [fst snd]. split.
  - f_equal. apply bool_decide_eq_true_2.
    assert (In m (List.filter (fun m0 => bool_decide (Message.userId m0 = Message.userId m))
                    (messages (db w)))) as Hf.
    { apply filter_In. split; [done|]. by apply bool_decide_eq_true_2. }
    destruct (List.filter _ (messages (db w))); [done|]. simpl. lia.
  - rewrite getMessageById_unfold, first_firstn_1. simpl.
    match goal with |- (inr (first ?l), _) = _ => destruct l as [|m' l'] eqn:E end; [done|].
    exfalso. assert (In m' (m' :: l')) as Hm' by (by left).
    rewrite <- E in Hm'. apply filter_In in Hm' as [Hm' Hid].
    apply filter_In in Hm' as [Hm' Hown].
    apply bool_decide_eq_true_1 in Hid.
    assert (m' = m) as -> by (by eapply (NoDup_map_inj Message.id)).
    by rewrite bool_decide_eq_true_2 in Hown.
Qed.

Lemma deleteMessage_own_then_not_found_witness :
  fst (deleteMessage 2 2 two_owners) = inr true /\
  getMessageById 2 (snd (deleteMessage 2 2 two_owners))
  = (inr None, snd (deleteMessage 2 2 two_owners)).
Proof.
  apply (deleteMessage_own_then_not_found two_owners (posted 2 "hi" "bob" 2 20 None)).
  - apply reachable_run. constructor.
  - right. by left.
Defined.

(** ** Messages: the feed *)

(** C7, at a failing input.  Ann's message 1 and Bob's message 2 carry the
    same [createdAt], and the feed returns them as 1, 2.  Then Ann edits her
    message.  The query orders by [createdAt] and by nothing else; the edit
    has written the new version of row 1 behind row 2, and the two rows of
    equal [createdAt] come back in heap order, as 2, 1: message 1, inserted
    first, is returned second. *)
Theorem getMessages_after_edit_ties_out_of_insertion_order :
  let m1 := posted 1 "hello!" "ann" 1 10 (Some 30) in
  let m2 := posted 2 "hi" "bob" 2 10 None in
  reachable tied_edited /\
  fst (getMessages keep_ties tied) = inr [posted 1 "hello" "ann" 1 10 None; m2] /\
  fst (getMessages keep_ties tied_edited) = inr [m2; m1] /\
  Message.createdAt m1 = Message.createdAt m2 /\
  Message.id m1 < Message.id m2.
Proof.
  cbv zeta. split; [apply reachable_call, reachable_run; constructor|].
  split; [reflexivity|]. split; [reflexivity|]. split; [reflexivity|].
  simpl. lia.
Qed.

(** ** Themes *)

(** The catalog after [initializeThemes], key by key. *)
Lemma initializeThemes_lookup clock (k : Z) :
  initializeThemes clock ∅ !! k =
  List.find (fun t => bool_decide (ChatTheme.id t = k)) (defaultThemes clock).
Proof.
  destruct (decide (k = 1)) as [->|H1]; [reflexivity|].
  destruct (decide (k = 2)) as [->|H2]; [reflexivity|].
  destruct (decide (k = 3)) as [->|H3]; [reflexivity|].
  destruct (decide (k = 4)) as [->|H4]; [reflexivity|].
  destruct (decide (k = 5)) as [->|H5]; [reflexivity|].
  destruct (decide (k = 6)) as [->|H6]; [reflexivity|].
  unfold initializeThemes, defaultThemes, theme. simpl.
  rewrite !lookup_insert_ne by done.
  rewrite !bool_decide_eq_false_2 by done.
  apply lookup_empty.
Qed.


Lemma seeded_lookup_Some clock k t :
  initializeThemes clock ∅ !! k = Some t ->
  1 <= k <= 6 /\ ChatTheme.id t = k /\ ChatTheme.isActive t = bool_decide (k = 1).
Proof.
  rewrite initializeThemes_lookup. unfold defaultThemes, theme. simpl.
  repeat (case_bool_decide;
          [intros [= <-]; subst k; simpl; repeat split; (lia || done)|]).
  done.
Qed.

Lemma seeded_lookup_None clock k :
  ~ (1 <= k <= 6) -> initializeThemes clock ∅ !! k = None.
Proof.
  intros Hk. destruct (initializeThemes clock ∅ !! k) as [t|] eqn:E; [|done].
  apply seeded_lookup_Some in E. tauto.
Qed.

Lemma seeded_lookup_is_Some clock k :
  1 <= k <= 6 -> is_Some (initializeThemes clock ∅ !! k).
Proof.
  intros Hk. assert (k = 1 \/ k = 2 \/ k = 3 \/ k = 4 \/ k = 5 \/ k = 6) as Hcases by lia.
  rewrite initializeThemes_lookup.
  destruct Hcases as [->|[->|[->|[->|[->| ->]]]]]; by eexists.
Qed.

Lemma storage_ok_constructor clock : storage_ok (constructor clock).
Proof. exists clock. split; [done|]. exists 1. split; [lia|done]. Qed.

Lemma storage_ok_exec c w : storage_ok (this w) -> storage_ok (this (exec c w)).
Proof.
  intros Hok. destruct c as [d now|d now|id uid upd now|id uid|t|uid now now'];
    cbn [exec]; try exact Hok.
  - rewrite createMessage_unfold. by destruct (accepts_message d (db w)).
  (* setActiveTheme is the one call that writes [currentTheme] *)
  - unfold setActiveTheme, bind, get_world.
    destruct (themes (this w) !! t) as [th|] eqn:Et; simpl; [|exact Hok].
    destruct Hok as (clock & Hthemes & _). exists clock. split; [done|].
    exists t. split; [|done]. rewrite Hthemes in Et.
    by apply seeded_lookup_Some in Et as [? _].
Qed.

Lemma reachable_storage_ok w : reachable w -> storage_ok (this w).
Proof.
  induction 1 as [clock|c w _ IH|clock w _ IH]; simpl.
  - apply storage_ok_constructor.
  - by apply storage_ok_exec.
  - apply storage_ok_constructor.
Qed.

(** C6: in every reachable state, for every [themeId] outside 1..6,
    [setActiveTheme(themeId)] throws the theme-not-found error and leaves the
    state as it was; [getActiveTheme()] returns after the call what it
    returned before. *)
Theorem setActiveTheme_unknown_id (w : World) (themeId : Z) :
  reachable w -> ~ (1 <= themeId <= 6) ->
  setActiveTheme themeId w = (inl (ThemeNotFound themeId), w) /\
  fst (getActiveTheme (snd (setActiveTheme themeId w))) = fst (getActiveTheme w).
Proof.
  intros Hw Hid. apply reachable_storage_ok in Hw as (clock & Hthemes & _).
  assert (setActiveTheme themeId w = (inl (ThemeNotFound themeId), w)) as Hset.
  { unfold setActiveTheme, bind, get_world.
    by rewrite Hthemes, (seeded_lookup_None _ _ Hid). }
  by rewrite Hset.
Qed.

Lemma setActiveTheme_unknown_id_witness :
  setActiveTheme 7 two_owners = (inl (ThemeNotFound 7), two_owners) /\
  fst (getActiveTheme (snd (setActiveTheme 7 two_owners)))
  = fst (getActiveTheme two_owners).
Proof.
  apply (setActiveTheme_unknown_id two_owners 7).
  - apply reachable_run. constructor.
  - lia.
Defined.

(** C10: [setActiveTheme] leaves the catalog as it is, and in every reachable
    state the catalog carries the seeded flags: [isActive] is true for theme 1
    and false for themes 2 to 6.  So after a successful [setActiveTheme(t)]
    with [t] other than 1, [getActiveTheme()] returns a theme whose
    [isActive] is false, while theme 1 still has [isActive] true. *)
Theorem setActiveTheme_keeps_isActive_flags (w : World) :
  reachable w ->
  (forall themeId, themes (this (snd (setActiveTheme themeId w))) = themes (this w)) /\
  (forall k t, themes (this w) !! k = Some t ->
     ChatTheme.isActive t = bool_decide (k = 1)) /\
  (forall themeId w' t, themeId <> 1 ->
     setActiveTheme themeId w = (inr t, w') ->
     exists t1,
       getActiveTheme w' = (inr (Some t), w') /\
       ChatTheme.isActive t = false /\
       themes (this w') !! 1 = Some t1 /\
       ChatTheme.isActive t1 = true).
Proof.
  intros Hw. apply reachable_storage_ok in Hw as (clock & Hthemes & _).
  split; [|split].
  - intros themeId. unfold setActiveTheme, bind, get_world.
    by destruct (themes (this w) !! themeId).
  - intros k t Hk. rewrite Hthemes in Hk. by apply seeded_lookup_Some in Hk as (_ & _ & ?).
  - intros themeId w' t Hne. unfold setActiveTheme, bind, get_world.
    destruct (themes (this w) !! themeId) as [th|] eqn:Et; simpl; [|done].
    intros [= <- <-]. rewrite Hthemes in Et.
    apply seeded_lookup_Some in Et as (_ & _ & Hflag).
    destruct (seeded_lookup_is_Some clock 1) as [t1 Ht1]; [lia|].
    exists t1. simpl. rewrite Hthemes. repeat split; [|done|].
    + by rewrite Hflag, bool_decide_eq_false_2.
    + by apply seeded_lookup_Some in Ht1 as (_ & _ & ?).
Qed.

Lemma setActiveTheme_keeps_isActive_flags_witness :
  exists t w',
    setActiveTheme 6 boot = (inr t, w') /\
    ChatTheme.name t = "Dark Mode"%string /\
    getActiveTheme w' = (inr (Some t), w') /\
    ChatTheme.isActive t = false /\
    (ChatTheme.isActive <$> themes (this w') !! 1) = Some true.
Proof.
  assert (reachable boot) as Hboot by constructor.
  destruct (setActiveTheme_keeps_isActive_flags boot Hboot) as (_ & _ & Hset).
  destruct (setActiveTheme 6 boot) as [[e|t] w'] eqn:E; [discriminate E|].
  destruct (Hset 6 w' t) as (t1 & Hget & Hfalse & Ht1 & Htrue); [lia|done|].
  exists t, w'. repeat split; [|done|done|by rewrite Ht1; simpl; rewrite Htrue].
  by injection E as <- _.
Defined.

(** ** Presence *)


Lemma isUserActive_spec now userId s :
  isUserActive now userId s = true <-> active_by_spec now s userId.
Proof.
  unfold isUserActive, active_by_spec.
  destruct (userActivity s !! userId) as [t|]; simpl.
  - rewrite bool_decide_eq_true. split.
    + intros Ht. right. exists t. split; [done|lia].
    + intros [|(t' & [= <-] & Ht)]; [done|lia].
  - split; [by left|done].
Qed.

Lemma count_loop {A : Type} (p : A -> bool) (l : list A) (n : Z) :
  List.fold_left (fun n a => if p a then n + 1 else n) l n
  = n + Z.of_nat (length (List.filter p l)).
Proof.
  revert n. induction l as [|a l IH]; intros n; simpl; [lia|].
  rewrite IH. destruct (p a); simpl; lia.
Qed.

Lemma getUsersCount_unfold now w :
  getUsersCount now w =
  (inr (Z.of_nat (length (List.filter
                            (fun user => isUserActive now (User.id user) (this w))
                            (users (db w))))), w).
Proof.
  unfold getUsersCount, bind, get_world, ret.
  by rewrite (count_loop (fun user => isUserActive now (User.id user) (this w))).
Qed.

(** C4: [getUsersCount()] returns the number of stored users that
    [isUserActive] accepts, and [isUserActive] accepts a user exactly when no
    heartbeat is recorded for the user or the last one is less than five
    minutes old.  A heartbeat at [T] makes the user active at [T] + 4 min and
    not active at [T] + 6 min: one more, respectively no more, in the count
    of a table that holds the user once. *)
Theorem getUsersCount_counts_active_users (now : Z) (w : World) :
  (forall userId,
     isUserActive now userId (this w) = true <-> active_by_spec now (this w) userId) /\
  (forall earlier u later,
     users (db w) = earlier ++ u :: later ->
     fst (getUsersCount now w) =
     inr (Z.of_nat (length (List.filter
                              (fun user => isUserActive now (User.id user) (this w))
                              (earlier ++ later)))
          + (if isUserActive now (User.id u) (this w) then 1 else 0))) /\
  (forall userId T T',
     let w' := snd (updateUserActivity userId T T' w) in
     isUserActive (T + 4 * 60 * 1000) userId (this w') = true /\
     isUserActive (T + 6 * 60 * 1000) userId (this w') = false).
Proof.
  split; [|split].
  - intros userId. apply isUserActive_spec.
  - intros l1 u l2 Husers. rewrite getUsersCount_unfold, Husers. simpl.
    rewrite !List.filter_app, !length_app. simpl.
    destruct (isUserActive now (User.id u) (this w)); simpl; f_equal; lia.
  - intros userId T T'. simpl. unfold isUserActive. simpl.
    rewrite lookup_insert_eq. simpl. split.
    + apply bool_decide_eq_true_2. lia.
    + apply bool_decide_eq_false_2. lia.
Qed.


Lemma getUsersCount_counts_active_users_witness :
  fst (getUsersCount (1000 + 4 * 60 * 1000) ann_online) = inr 1 /\
  fst (getUsersCount (1000 + 6 * 60 * 1000) ann_online) = inr 0.
Proof.
  split.
  - destruct (getUsersCount_counts_active_users (1000 + 4 * 60 * 1000) ann_online)
      as (_ & Hcount & _).
    exact (Hcount [] _ [] eq_refl).
  - destruct (getUsersCount_counts_active_users (1000 + 6 * 60 * 1000) ann_online)
      as (_ & Hcount & _).
    exact (Hcount [] _ [] eq_refl).
Defined.

(** ** Users *)

Lemma bind_inr {A B : Type} (m : M A) (k : A -> M B) w a w' :
  m w = (inr a, w') -> bind m k w = k a w'.
Proof. unfold bind. by intros ->. Qed.

Lemma first_filter_Some {A : Type} (p : A -> bool) (l : list A) (a : A) :
  In a l -> p a = true -> exists a', first (firstn 1 (List.filter p l)) = Some a'.
Proof.
  intros Hin Hp. rewrite first_firstn_1.
  assert (In a (List.filter p l)) as Hf by (by apply filter_In).
  destruct (List.filter p l) as [|a' l']; [done|]. by exists a'.
Qed.

Lemma getUserByEmail_found w u :
  In u (users (db w)) ->
  exists u', getUserByEmail (User.email u) w = (inr (Some u'), w).
Proof.
  intros Hin. unfold getUserByEmail, bind, get_world, ret, drizzle.select_where.
  destruct (first_filter_Some (drizzle.test (drizzle.eq User.email (User.email u)))
              (users (db w)) u Hin) as [u' Hu'].
  { by apply bool_decide_eq_true_2. }
  exists u'. by rewrite Hu'.
Qed.

(** C5: when the validated sign-up data carry the email of a stored user,
    the sign-up route answers 400 with the duplicate-email message, and the
    state after the call is the state before it: the user table has the same
    rows. *)
Theorem signup_duplicate_email {Body : Type}
  (signUpSchema_parse : Body -> list string + SignUpData.t)
  (body : Body) (now : Z) (w : World) (validatedData : SignUpData.t) (u : User.t) :
  signUpSchema_parse body = inr validatedData ->
  In u (users (db w)) ->
  User.email u = SignUpData.email validatedData ->
  signup signUpSchema_parse body now w =
  (inr (mkResponse 400 (message_json "User with this email already exists")), w).
Proof.
  intros Hparse Hin Hemail.
  destruct (getUserByEmail_found w u Hin) as [u' Hu'].
  unfold signup, try_catch.
  erewrite bind_inr; [|unfold parse; rewrite Hparse; reflexivity].
  erewrite bind_inr; [|rewrite <- Hemail; exact Hu'].
  reflexivity.
Qed.


Lemma signup_duplicate_email_witness :
  let body := SignUpData.mk "b" "a@x.com" "pw" "Bob" "Ray" in
  signup parse_nonempty body 5 ann_online =
  (inr (mkResponse 400 (message_json "User with this email already exists")),
   ann_online)
  /\ length (users (db ann_online)) = 1%nat.
Proof.
  split; [|reflexivity].
  apply (signup_duplicate_email parse_nonempty _ 5 ann_online
           (SignUpData.mk "b" "a@x.com" "pw" "Bob" "Ray")
           (User.mk 1 "a" "a@x.com" "secret" "Ann" "Lee" None None None None None 0
              (Some 1001))).
  - reflexivity.
  - by left.
  - reflexivity.
Defined.

(** The insert takes its id from the sequence, which is above every stored
    id; this holds for any sign-up data. *)
Lemma createUser_takes_next_id (w : World) (signUpData : SignUpData.t) (now : Z) :
  db_ok (db w) ->
  exists user w',
    createUser signUpData now w = (inr (Some user), w') /\
    users (db w') = users (db w) ++ [user] /\
    User.id user = users_id_seq (db w) /\
    forall previous, In previous (users (db w)) -> User.id previous < User.id user.
Proof.
  intros (Hu & _).
  rewrite createUser_unfold. simpl. eexists _, _. split; [reflexivity|].
  split; [reflexivity|]. split; [reflexivity|]. simpl. intros previous Hin.
  rewrite Forall_forall in Hu. by apply Hu, list_elem_of_In.
Qed.

(** C9: in every reachable state, for sign-up data whose email and username
    are not taken, [createUser] returns a user, stores it, and its id is
    strictly greater than the id of every user created before.  (No user is
    ever removed, so the users created before are the stored ones.) *)
Theorem createUser_id_above_previous (w : World) (signUpData : SignUpData.t) (now : Z) :
  reachable w ->
  fst (getUserByEmail (SignUpData.email signUpData) w) = inr None ->
  fst (getUserByUsername (SignUpData.username signUpData) w) = inr None ->
  exists user w',
    createUser signUpData now w = (inr (Some user), w') /\
    users (db w') = users (db w) ++ [user] /\
    forall previous, In previous (users (db w)) -> User.id previous < User.id user.
Proof.
  intros Hw _ _. apply reachable_db_ok in Hw.
  destruct (createUser_takes_next_id w signUpData now Hw)
    as (user & w' & Hcreate & Hstored & _ & Habove).
  by exists user, w'.
Qed.

Lemma createUser_id_above_previous_witness :
  let bob := SignUpData.mk "b" "b@x.com" "pw" "Bob" "Ray" in
  exists user w',
    createUser bob 7 ann_online = (inr (Some user), w') /\
    users (db w') = users (db ann_online) ++ [user] /\
    forall previous, In previous (users (db ann_online)) ->
      User.id previous < User.id user.
Proof.
  apply (createUser_id_above_previous ann_online
           (SignUpData.mk "b" "b@x.com" "pw" "Bob" "Ray") 7).
  - apply reachable_run. constructor.
  - reflexivity.
  - reflexivity.
Defined.

Lemma Forall2_map_r {A B : Type} (P : A -> B -> Prop) (f : A -> B) (l : list A) :
  (forall a, P a (f a)) -> Forall2 P l (List.map f l).
Proof. intros Hf. induction l; simpl; by constructor. Qed.

Lemma to_obj_id u : User.to_obj u !! "id"%string = Some (VNum (User.id u)).
Proof. reflexivity. Qed.

Lemma to_obj_password u :
  User.to_obj u !! "password"%string = Some (VStr (User.password u)).
Proof. reflexivity. Qed.

(** C8: in every state, [getAllUsers()] and [getOnlineUsers()] each return
    one record per stored user, in table order, whatever the heartbeats are;
    each record carries the user's id and has no [password] key. *)
Theorem user_lists_complete_without_password (w : World) :
  let one_per_user :=
    Forall2 (fun (u : User.t) (o : gmap string value) =>
               o !! "id"%string = Some (VNum (User.id u)) /\
               o !! "password"%string = None)
            (users (db w)) in
  (exists result, getAllUsers w = (inr result, w) /\ one_per_user result) /\
  (exists result, getOnlineUsers w = (inr result, w) /\ one_per_user result).
Proof.
  split.
  - eexists. split; [reflexivity|]. apply Forall2_map_r. intros u.
    unfold userWithoutPassword. split.
    + by rewrite lookup_delete_ne, to_obj_id.
    + apply lookup_delete_eq.
  - eexists. split; [reflexivity|]. apply Forall2_map_r. intros u.
    unfold userWithoutPassword. split.
    + by rewrite lookup_insert_ne, lookup_delete_ne, to_obj_id.
    + rewrite lookup_insert_ne by done. apply lookup_delete_eq.
Qed.

(** * Further properties of the storage class *)

(** ** Lookups *)

Lemma first_filter_In {A : Type} (p : A -> bool) (l : list A) (a : A) :
  first (List.filter p l) = Some a -> In a l /\ p a = true.
Proof.
  intros Hfirst. apply filter_In.
  destruct (List.filter p l) as [|x l']; [done|].
  injection Hfirst as ->. by left.
Qed.

Lemma first_filter_None {A : Type} (p : A -> bool) (l : list A) :
  first (List.filter p l) = None <-> forall a, In a l -> p a = false.
Proof.
  split.
  - intros Hnone a Hin. destruct (p a) eqn:Hp; [|done].
    assert (In a (List.filter p l)) as Hf by (by apply filter_In).
    by destruct (List.filter p l).
  - intros Hall. destruct (List.filter p l) as [|x l'] eqn:E; [done|].
    assert (In x (List.filter p l)) as Hx by (rewrite E; by left).
    apply filter_In in Hx as [Hx Hp]. rewrite (Hall x Hx) in Hp. done.
Qed.

Lemma first_filter_unique {A B : Type} `{EqDecision B} (f : A -> B) (l : list A) (a : A) :
  List.NoDup (List.map f l) -> In a l ->
  first (List.filter (fun x => bool_decide (f x = f a)) l) = Some a.
Proof.
  intros Hnd Hin.
  destruct (first_filter_Some (fun x => bool_decide (f x = f a)) l a Hin) as [a' Ha'].
  { by apply bool_decide_eq_true_2. }
  rewrite first_firstn_1 in Ha'. rewrite Ha'.
  apply first_filter_In in Ha' as [Hin' Heq]. apply bool_decide_eq_true_1 in Heq.
  f_equal. by eapply (NoDup_map_inj f).
Qed.

Lemma getUser_unfold id w :
  getUser id w =
  (inr (first (List.filter (fun u => bool_decide (User.id u = id)) (users (db w)))), w).
Proof. unfold getUser, bind, get_world, ret. by rewrite first_firstn_1. Qed.

Lemma getUserByEmail_unfold email w :
  getUserByEmail email w =
  (inr (first (List.filter (fun u => bool_decide (User.email u = email)) (users (db w)))),
   w).
Proof. unfold getUserByEmail, bind, get_world, ret. by rewrite first_firstn_1. Qed.

Lemma getUserByUsername_unfold username w :
  getUserByUsername username w =
  (inr (first (List.filter (fun u => bool_decide (User.username u = username))
                 (users (db w)))), w).
Proof. unfold getUserByUsername, bind, get_world, ret. by rewrite first_firstn_1. Qed.

Lemma user_ids_exec c w :
  db_ok (db w) -> List.NoDup (List.map User.id (users (db w))) ->
  List.NoDup (List.map User.id (users (db (exec c w)))).
Proof.
  intros (Hu & _) Hnd.
  destruct c as [d now|d now|id uid upd now|id uid|t|uid now now']; cbn [exec].
  - rewrite createUser_unfold. simpl. rewrite List.map_app. simpl.
    apply NoDup_ListNoDup, NoDup_app. repeat split.
    + by apply NoDup_ListNoDup.
    + intros x Hx Hx'. apply list_elem_of_In in Hx.
      apply list_elem_of_singleton in Hx'. subst x.
      apply in_map_iff in Hx as (u & Hid & Hin).
      rewrite Forall_forall in Hu. apply list_elem_of_In, Hu in Hin. lia.
    + apply NoDup_singleton.
  - rewrite createMessage_unfold. by destruct (accepts_message d (db w)).
  - by rewrite updateMessage_unfold.
  - by rewrite deleteMessage_unfold.
  - unfold setActiveTheme, bind, get_world. by destruct (themes (this w) !! t).
  - simpl. eapply Permutation_NoDup; [|exact Hnd].
    symmetry. by apply updated_keys_Permutation.
Qed.

Lemma reachable_user_ids_unique w :
  reachable w -> List.NoDup (List.map User.id (users (db w))).
Proof.
  induction 1 as [clock|c w Hw IH|clock w _ IH]; simpl.
  - constructor.
  - apply user_ids_exec; [by apply reachable_db_ok|done].
  - exact IH.
Qed.

Lemma getMessageById_stored w m :
  List.NoDup (List.map Message.id (messages (db w))) -> In m (messages (db w)) ->
  getMessageById (Message.id m) w = (inr (Some m), w).
Proof.
  intros Hnd Hin. rewrite getMessageById_unfold, first_firstn_1.
  by rewrite (first_filter_unique Message.id _ m Hnd Hin).
Qed.

Lemma getUser_stored w u :
  List.NoDup (List.map User.id (users (db w))) -> In u (users (db w)) ->
  getUser (User.id u) w = (inr (Some u), w).
Proof.
  intros Hnd Hin. rewrite getUser_unfold.
  by rewrite (first_filter_unique User.id _ u Hnd Hin).
Qed.

(** In every reachable state the lookups by id find each stored row: the
    user, respectively the message, that carries the id, and no other. *)
Theorem lookups_by_id_find_stored_rows (w : World) :
  reachable w ->
  (forall u, In u (users (db w)) -> getUser (User.id u) w = (inr (Some u), w)) /\
  (forall m, In m (messages (db w)) ->
     getMessageById (Message.id m) w = (inr (Some m), w)).
Proof.
  intros Hw. split.
  - intros u Hin. apply getUser_stored; [|done]. by apply reachable_user_ids_unique.
  - intros m Hin. apply getMessageById_stored; [|done].
    by apply reachable_db_ok in Hw as (_ & _ & Hnd).
Qed.

Lemma lookups_by_id_find_stored_rows_witness :
  getMessageById 2 two_owners = (inr (Some (posted 2 "hi" "bob" 2 20 None)), two_owners).
Proof.
  assert (reachable two_owners) as Hw by (apply reachable_run; constructor).
  destruct (lookups_by_id_find_stored_rows two_owners Hw) as [_ Hm].
  apply (Hm (posted 2 "hi" "bob" 2 20 None)). right. by left.
Defined.

(** In every reachable state a lookup by an id that the sequence has not
    issued yet finds nothing, for users and for messages; and a lookup that
    finds a row returns a stored row with the id asked for. *)
Theorem lookups_by_id_miss_and_hit (w : World) (id : Z) :
  reachable w ->
  (users_id_seq (db w) <= id -> getUser id w = (inr None, w)) /\
  (messages_id_seq (db w) <= id -> getMessageById id w = (inr None, w)) /\
  (forall u, fst (getUser id w) = inr (Some u) ->
     In u (users (db w)) /\ User.id u = id) /\
  (forall m, fst (getMessageById id w) = inr (Some m) ->
     In m (messages (db w)) /\ Message.id m = id).
Proof.
  intros Hw. apply reachable_db_ok in Hw as (Hu & Hm & _).
  rewrite Forall_forall in Hu. rewrite Forall_forall in Hm.
  rewrite getUser_unfold, getMessageById_unfold, first_firstn_1. simpl.
  split; [|split; [|split]].
  - intros Hid. do 2 f_equal. apply first_filter_None. intros u Hin.
    apply bool_decide_eq_false_2. apply list_elem_of_In, Hu in Hin. lia.
  - intros Hid. do 2 f_equal. apply first_filter_None. intros m Hin.
    apply bool_decide_eq_false_2. apply list_elem_of_In, Hm in Hin. lia.
  - intros u [= Hfirst]. apply first_filter_In in Hfirst as [Hin Heq].
    by apply bool_decide_eq_true_1 in Heq.
  - intros m [= Hfirst]. apply first_filter_In in Hfirst as [Hin Heq].
    by apply bool_decide_eq_true_1 in Heq.
Qed.

Lemma lookups_by_id_miss_and_hit_witness :
  getUser 1 two_owners = (inr None, two_owners) /\
  getMessageById 3 two_owners = (inr None, two_owners).
Proof.
  assert (reachable two_owners) as Hw by (apply reachable_run; constructor).
  split.
  - destruct (lookups_by_id_miss_and_hit two_owners 1 Hw) as (Hu & _).
    apply Hu. simpl. lia.
  - destruct (lookups_by_id_miss_and_hit two_owners 3 Hw) as (_ & Hm & _).
    apply Hm. simpl. lia.
Defined.

(** ** Posting a message *)




(** ** Signing in *)

Lemma authenticateUser_unfold credentials w :
  authenticateUser credentials w =
  (inr (match first (List.filter
                       (fun u => bool_decide (User.email u = SignInData.email credentials))
                       (users (db w))) with
        | None => None
        | Some user =>
            if bool_decide (User.password user <> SignInData.password credentials)
            then None else Some user
        end), w).
Proof.
  unfold authenticateUser. erewrite bind_inr; [|apply getUserByEmail_unfold].
  destruct (first _) as [user|]; [|done]. by case_bool_decide.
Qed.

Lemma authenticateUser_sound credentials w :
  (forall u, fst (authenticateUser credentials w) = inr (Some u) ->
     In u (users (db w)) /\
     User.email u = SignInData.email credentials /\
     User.password u = SignInData.password credentials) /\
  ((forall u, In u (users (db w)) -> User.email u <> SignInData.email credentials) ->
   fst (authenticateUser credentials w) = inr None).
Proof.
  rewrite authenticateUser_unfold. cbn [fst]. split.
  - intros u [= Hr].
    destruct (first _) as [user|] eqn:Hfirst; [|done].
    apply first_filter_In in Hfirst as [Hin Hemail].
    apply bool_decide_eq_true_1 in Hemail.
    case_bool_decide as Hpw; [done|]. injection Hr as <-.
    repeat split; [done|done|].
    by destruct (decide (User.password user = SignInData.password credentials)).
  - intros Hnone.
    destruct (first _) as [user|] eqn:Hfirst; [|done].
    apply first_filter_In in Hfirst as [Hin Hemail].
    apply bool_decide_eq_true_1 in Hemail. by destruct (Hnone user Hin).
Qed.

(** [authenticateUser] never changes the state.  A user it returns is a
    stored user with the email and the password of the credentials, and it
    returns null when no stored user has the email. *)
Theorem authenticateUser_returns_matching_user (credentials : SignInData.t) (w : World) :
  exists r,
    authenticateUser credentials w = (inr r, w) /\
    (forall u, r = Some u ->
       In u (users (db w)) /\
       User.email u = SignInData.email credentials /\
       User.password u = SignInData.password credentials) /\
    ((forall u, In u (users (db w)) -> User.email u <> SignInData.email credentials) ->
     r = None).
Proof.
  destruct (authenticateUser_sound credentials w) as [Hsome Hnone].
  rewrite authenticateUser_unfold in *. cbn [fst] in *.
  eexists. split; [reflexivity|]. split.
  - intros u Hr. apply Hsome. by rewrite Hr.
  - intros Hall. specialize (Hnone Hall). by injection Hnone.
Qed.

Lemma createUser_then_getUserByEmail w signUpData now :
  fst (getUserByEmail (SignUpData.email signUpData) w) = inr None ->
  exists user,
    createUser signUpData now w
    = (inr (Some user), set_db (fst (insert_users signUpData None None now (db w))) w) /\
    User.email user = SignUpData.email signUpData /\
    User.password user = SignUpData.password signUpData /\
    getUserByEmail (SignUpData.email signUpData) (snd (createUser signUpData now w))
    = (inr (Some user), snd (createUser signUpData now w)).
Proof.
  rewrite getUserByEmail_unfold. simpl. intros [= Hfresh].
  rewrite createUser_unfold. cbv zeta. cbn [fst snd].
  eexists. split; [reflexivity|]. split; [reflexivity|]. split; [reflexivity|].
  rewrite getUserByEmail_unfold. do 2 f_equal. simpl.
  rewrite List.filter_app.
  destruct (List.filter _ (users (db w))); [|done].
  simpl. by rewrite bool_decide_eq_true_2.
Qed.

(** When no stored user has the email of the sign-up data, the user that
    [createUser] stores is the one [authenticateUser] returns for the email
    and the password of the sign-up data; with any other password it returns
    null. *)
Theorem createUser_then_authenticateUser (w : World) (signUpData : SignUpData.t)
  (now : Z) :
  fst (getUserByEmail (SignUpData.email signUpData) w) = inr None ->
  exists user w',
    createUser signUpData now w = (inr (Some user), w') /\
    authenticateUser
      (SignInData.mk (SignUpData.email signUpData) (SignUpData.password signUpData)) w'
    = (inr (Some user), w') /\
    forall password, password <> SignUpData.password signUpData ->
      authenticateUser (SignInData.mk (SignUpData.email signUpData) password) w'
      = (inr None, w').
Proof.
  intros Hfresh.
  destruct (createUser_then_getUserByEmail w signUpData now Hfresh)
    as (user & Hcreate & Hemail & Hpw & Hget).
  rewrite Hcreate in Hget. cbn [snd] in Hget.
  exists user, (set_db (fst (insert_users signUpData None None now (db w))) w).
  split; [done|]. split.
  - unfold authenticateUser. erewrite bind_inr; [|exact Hget].
    cbn [SignInData.password]. rewrite bool_decide_eq_false_2; [done|].
    intros Hne. by apply Hne.
  - intros password Hne. unfold authenticateUser. erewrite bind_inr; [|exact Hget].
    cbn [SignInData.password]. rewrite bool_decide_eq_true_2; [done|].
    by rewrite Hpw.
Qed.

Lemma createUser_then_authenticateUser_witness :
  exists user w',
    createUser ann 0 boot = (inr (Some user), w') /\
    authenticateUser (SignInData.mk "a@x.com" "secret") w' = (inr (Some user), w') /\
    authenticateUser (SignInData.mk "a@x.com" "Secret") w' = (inr None, w').
Proof.
  destruct (createUser_then_authenticateUser boot ann 0)
    as (user & w' & Hcreate & Hok & Hwrong); [reflexivity|].
  exists user, w'. repeat split; [done|done|]. by apply Hwrong.
Defined.

(** ** Edits and deletes: what they leave alone *)

(** An update that no row passes leaves the table as it is. *)
Lemma updated_rows_none {A : Type} (p : A -> bool) (f : A -> A) (l : list A) :
  (forall a, In a l -> p a = false) ->
  List.filter (fun a => negb (p a)) l ++ List.map f (List.filter p l) = l.
Proof.
  induction l as [|a l IH]; simpl; [done|].
  intros Hall. rewrite (Hall a) by (by left). simpl. f_equal. apply IH.
  intros b Hb. apply Hall. by right.
Qed.

Lemma filter_all_true {A : Type} (p : A -> bool) (l : list A) :
  (forall a, In a l -> p a = true) -> List.filter p l = l.
Proof.
  induction l as [|a l IH]; simpl; [done|].
  intros Hall. rewrite (Hall a) by (by left). f_equal. apply IH.
  intros b Hb. apply Hall. by right.
Qed.

(** [updateMessage] keeps the number of messages and, up to the order of
    the rows in the table, the id, the owner, the author name and the
    creation time of every message; it touches neither the users nor the
    storage object. *)
Theorem updateMessage_keeps_identity_of_rows (id userId : Z) (updates : UpdateMessage.t)
  (now : Z) (w : World) :
  let w' := snd (updateMessage id userId updates now w) in
  let identity (m : Message.t) :=
    (Message.id m, Message.userId m, Message.username m, Message.createdAt m) in
  length (messages (db w')) = length (messages (db w)) /\
  Permutation (List.map identity (messages (db w')))
    (List.map identity (messages (db w))) /\
  users (db w') = users (db w) /\
  this w' = this w.
Proof.
  cbv zeta. rewrite updateMessage_unfold. cbv zeta. cbn [snd]. simpl.
  assert (Permutation
            (List.map (fun m => (Message.id m, Message.userId m, Message.username m,
                                 Message.createdAt m))
               (List.filter (fun m => negb (bool_decide (Message.userId m = userId)))
                  (messages (db w)) ++
                List.map (set_updates updates now)
                  (List.filter (fun m => bool_decide (Message.userId m = userId))
                     (messages (db w)))))
            (List.map (fun m => (Message.id m, Message.userId m, Message.username m,
                                 Message.createdAt m))
               (messages (db w)))) as Hperm.
  { by apply updated_keys_Permutation. }
  split; [|by split].
  apply Permutation_length in Hperm. by rewrite !length_map in Hperm.
Qed.

(** [updateMessage] returns null exactly when the caller owns no stored
    message, and then the message table is as it was. *)
Theorem updateMessage_null_when_caller_owns_nothing (id userId : Z)
  (updates : UpdateMessage.t) (now : Z) (w : World) :
  let r := updateMessage id userId updates now w in
  (fst r = inr None <->
   forall m, In m (messages (db w)) -> Message.userId m <> userId) /\
  (fst r = inr None -> messages (db (snd r)) = messages (db w)).
Proof.
  cbv zeta. split; [apply updateMessage_null_iff|].
  intros Hnone.
  pose proof (proj1 (updateMessage_null_iff id userId updates now w) Hnone) as Hall.
  rewrite updateMessage_unfold. simpl.
  apply (updated_rows_none (fun m => bool_decide (Message.userId m = userId))).
  intros m Hin. apply bool_decide_eq_false_2. by apply Hall.
Qed.

Lemma updateMessage_null_when_caller_owns_nothing_witness :
  fst (updateMessage 1 3 (UpdateMessage.mk "x") 30 two_owners) = inr None /\
  messages (db (snd (updateMessage 1 3 (UpdateMessage.mk "x") 30 two_owners)))
  = messages (db two_owners).
Proof.
  destruct (updateMessage_null_when_caller_owns_nothing 1 3 (UpdateMessage.mk "x") 30
              two_owners) as [Hiff Hsame].
  assert (fst (updateMessage 1 3 (UpdateMessage.mk "x") 30 two_owners) = inr None) as Hnone.
  { apply Hiff. intros m [<-|[<-|[]]]; simpl; lia. }
  split; [exact Hnone|exact (Hsame Hnone)].
Defined.

Lemma deleteMessage_false_iff id userId w :
  fst (deleteMessage id userId w) = inr false <->
  forall m, In m (messages (db w)) -> Message.userId m <> userId.
Proof.
  rewrite deleteMessage_unfold. simpl. split.
  - intros [= Hfalse] m Hin Heq. apply bool_decide_eq_false_1 in Hfalse.
    apply Hfalse.
    assert (In m (List.filter (fun m => bool_decide (Message.userId m = userId))
                    (messages (db w)))) as Hf.
    { apply filter_In. split; [done|]. by apply bool_decide_eq_true_2. }
    destruct (List.filter _ (messages (db w))); [done|]. simpl. lia.
  - intros Hall. do 2 f_equal. apply bool_decide_eq_false_2.
    destruct (List.filter (fun m => bool_decide (Message.userId m = userId))
                (messages (db w))) as [|m l] eqn:E; [simpl; lia|].
    exfalso. assert (In m (m :: l)) as Hin by (by left).
    rewrite <- E in Hin. apply filter_In in Hin as [Hin Ht].
    apply bool_decide_eq_true_1 in Ht. by apply (Hall m).
Qed.

(** [deleteMessage] returns false exactly when the caller owns no stored
    message, and then the message table is as it was. *)
Theorem deleteMessage_false_when_caller_owns_nothing (id userId : Z) (w : World) :
  let r := deleteMessage id userId w in
  (fst r = inr false <->
   forall m, In m (messages (db w)) -> Message.userId m <> userId) /\
  (fst r = inr false -> messages (db (snd r)) = messages (db w)).
Proof.
  cbv zeta. split; [apply deleteMessage_false_iff|].
  intros Hfalse.
  pose proof (proj1 (deleteMessage_false_iff id userId w) Hfalse) as Hall.
  rewrite deleteMessage_unfold. simpl. apply filter_all_true.
  intros m Hin. rewrite bool_decide_eq_false_2; [done|]. by apply Hall.
Qed.

Lemma deleteMessage_false_when_caller_owns_nothing_witness :
  fst (deleteMessage 1 3 two_owners) = inr false /\
  messages (db (snd (deleteMessage 1 3 two_owners))) = messages (db two_owners).
Proof.
  destruct (deleteMessage_false_when_caller_owns_nothing 1 3 two_owners) as [Hiff Hsame].
  assert (fst (deleteMessage 1 3 two_owners) = inr false) as Hfalse.
  { apply Hiff. intros m [<-|[<-|[]]]; simpl; lia. }
  split; [exact Hfalse|exact (Hsame Hfalse)].
Defined.

(** After [deleteMessage(id, userId)] the stored messages are those that
    were stored before and belong to another user, unchanged; the users and
    the storage object are untouched; and the same call again returns false
    and removes nothing. *)
Theorem deleteMessage_keeps_other_owners (id userId : Z) (w : World) :
  let w' := snd (deleteMessage id userId w) in
  (forall m, In m (messages (db w')) <->
     In m (messages (db w)) /\ Message.userId m <> userId) /\
  users (db w') = users (db w) /\
  this w' = this w /\
  fst (deleteMessage id userId w') = inr false /\
  messages (db (snd (deleteMessage id userId w'))) = messages (db w').
Proof.
  cbv zeta.
  assert (forall m, In m (messages (db (snd (deleteMessage id userId w)))) <->
            In m (messages (db w)) /\ Message.userId m <> userId) as Hmem.
  { intros m. rewrite deleteMessage_unfold. simpl. rewrite filter_In.
    by rewrite negb_true_iff, bool_decide_eq_false. }
  assert (fst (deleteMessage id userId (snd (deleteMessage id userId w))) = inr false)
    as Hagain.
  { apply deleteMessage_false_iff. intros m Hin. by apply Hmem in Hin as [_ ?]. }
  split; [exact Hmem|]. split; [done|]. split; [done|]. split; [exact Hagain|].
  pose proof (proj1 (deleteMessage_false_iff id userId _) Hagain) as Hall.
  rewrite (deleteMessage_unfold id userId (snd _)). simpl. apply filter_all_true.
  intros m Hin. rewrite bool_decide_eq_false_2; [done|].
  apply Hall. by rewrite deleteMessage_unfold.
Qed.

(** ** Themes *)

(** In every reachable state, for every [themeId] from 1 to 6,
    [setActiveTheme(themeId)] returns the theme of the catalog with that id,
    [getActiveTheme()] returns it afterwards, and the database and the
    heartbeats are untouched. *)
Theorem setActiveTheme_known_id (w : World) (themeId : Z) :
  reachable w -> 1 <= themeId <= 6 ->
  exists theme w',
    setActiveTheme themeId w = (inr theme, w') /\
    ChatTheme.id theme = themeId /\
    themes (this w) !! themeId = Some theme /\
    getActiveTheme w' = (inr (Some theme), w') /\
    db w' = db w /\
    userActivity (this w') = userActivity (this w).
Proof.
  intros Hw Hid. apply reachable_storage_ok in Hw as (clock & Hthemes & _).
  destruct (seeded_lookup_is_Some clock themeId Hid) as [theme Htheme].
  unfold setActiveTheme, bind, get_world. rewrite Hthemes, Htheme. simpl.
  eexists _, _. split; [reflexivity|].
  repeat split. by apply seeded_lookup_Some in Htheme as (_ & ? & _).
Qed.

Lemma setActiveTheme_known_id_witness :
  exists theme w',
    setActiveTheme 6 two_owners = (inr theme, w') /\
    ChatTheme.id theme = 6 /\
    getActiveTheme w' = (inr (Some theme), w').
Proof.
  destruct (setActiveTheme_known_id two_owners 6)
    as (theme & w' & Hset & Hid & _ & Hget & _).
  - apply reachable_run. constructor.
  - lia.
  - by exists theme, w'.
Defined.

(** In every reachable state [getActiveTheme()] returns a theme, never
    [undefined]: one of the six of the catalog, under its own id.  After a
    start or a restart it is theme 1. *)
Theorem getActiveTheme_is_a_catalog_theme (w : World) :
  reachable w ->
  (exists theme,
     getActiveTheme w = (inr (Some theme), w) /\
     1 <= ChatTheme.id theme <= 6 /\
     themes (this w) !! ChatTheme.id theme = Some theme) /\
  (forall clock,
     exists theme,
       fst (getActiveTheme (mkWorld (db w) (constructor clock))) = inr (Some theme) /\
       ChatTheme.id theme = 1).
Proof.
  intros Hw. split.
  - apply reachable_storage_ok in Hw as (clock & Hthemes & k & Hk & Hcur).
    destruct (seeded_lookup_is_Some clock k Hk) as [theme Htheme].
    exists theme. unfold getActiveTheme, bind, get_world, ret.
    rewrite Hcur, Hthemes, Htheme.
    apply seeded_lookup_Some in Htheme as Hfacts. destruct Hfacts as (_ & Hid & _).
    rewrite Hid. split; [done|]. split; [lia|done].
  - intros clock. by eexists.
Qed.

Lemma getActiveTheme_is_a_catalog_theme_witness :
  exists theme,
    getActiveTheme two_owners = (inr (Some theme), two_owners) /\
    1 <= ChatTheme.id theme <= 6.
Proof.
  destruct (getActiveTheme_is_a_catalog_theme two_owners) as [(theme & Hget & Hid & _) _].
  - apply reachable_run. constructor.
  - by exists theme.
Defined.

(** ** Presence *)

Lemma length_filter_le {A : Type} (p : A -> bool) (l : list A) :
  (length (List.filter p l) <= length l)%nat.
Proof.
  induction l as [|a l IH]; simpl; [lia|]. destruct (p a); simpl; lia.
Qed.

(** The count of active users lies between 0 and the count of all users, and
    right after a start or a restart, when no heartbeat has arrived yet, the
    two counts agree at every time. *)
Theorem getUsersCount_at_most_total (now : Z) (w : World) :
  exists count total,
    getUsersCount now w = (inr count, w) /\
    getTotalUsersCount w = (inr total, w) /\
    0 <= count <= total /\
    forall clock,
      fst (getUsersCount now (mkWorld (db w) (constructor clock))) = inr total.
Proof.
  eexists _, _. split; [apply getUsersCount_unfold|]. split; [reflexivity|]. split.
  - pose proof (length_filter_le
                  (fun user => isUserActive now (User.id user) (this w)) (users (db w))).
    lia.
  - intros clock. rewrite getUsersCount_unfold. simpl.
    rewrite filter_all_true; [done|]. by intros u _.
Qed.

(** A heartbeat for one user changes the presence of no other user; it
    keeps, up to the order of the rows in the table, the id, the email and
    the password of every user; it stamps the rows of the user it names with
    the second clock read and leaves the rows of the other users as they
    are; and it touches neither the messages nor the themes. *)
Theorem updateUserActivity_touches_one_user (userId now now' : Z) (w : World) :
  let w' := snd (updateUserActivity userId now now' w) in
  let account (u : User.t) := (User.id u, User.email u, User.password u) in
  (forall t other, other <> userId ->
     isUserActive t other (this w') = isUserActive t other (this w)) /\
  Permutation (List.map account (users (db w'))) (List.map account (users (db w))) /\
  (forall u, In u (users (db w')) -> User.id u = userId ->
     User.lastActivity u = Some now') /\
  (forall u, User.id u <> userId -> In u (users (db w')) <-> In u (users (db w))) /\
  messages (db w') = messages (db w) /\
  currentTheme (this w') = currentTheme (this w) /\
  themes (this w') = themes (this w).
Proof.
  cbv zeta. simpl. split; [|split; [|split; [|split]]].
  - intros t other Hne. unfold isUserActive. simpl. by rewrite lookup_insert_ne.
  - by apply (updated_keys_Permutation
                (fun u => (User.id u, User.email u, User.password u))).
  - intros u Hin Hid.
    apply updated_rows_In in Hin as [[_ Hp]|(u0 & _ & _ & ->)]; [|done].
    by apply bool_decide_eq_false_1 in Hp.
  - intros u Hne. rewrite updated_rows_In. split.
    + intros [[Hin _]|(u0 & _ & Hp & ->)]; [done|].
      apply bool_decide_eq_true_1 in Hp. simpl in Hne. done.
    + intros Hin. left. split; [done|]. by apply bool_decide_eq_false_2.
  - done.
Qed.

(** The [lastActivity] that [getOnlineUsers] reports for a user is the
    heartbeat that this storage object recorded for the user's id, or null
    when it recorded none: right after a start or a restart it is null for
    every user, whatever the [lastActivity] column of the row holds. *)
Theorem getOnlineUsers_reports_recorded_heartbeats (w : World) :
  (exists result,
     getOnlineUsers w = (inr result, w) /\
     Forall2 (fun (u : User.t) (o : gmap string value) =>
                o !! "lastActivity"%string
                = Some (date_or_null (userActivity (this w) !! User.id u)))
             (users (db w)) result) /\
  (forall clock,
     exists result,
       fst (getOnlineUsers (mkWorld (db w) (constructor clock))) = inr result /\
       length result = length (users (db w)) /\
       Forall (fun o : gmap string value => o !! "lastActivity"%string = Some VNull)
         result).
Proof.
  split.
  - eexists. split; [reflexivity|]. apply Forall2_map_r. intros u.
    apply lookup_insert_eq.
  - intros clock. eexists. split; [reflexivity|]. simpl. split; [apply length_map|].
    apply Forall_forall. intros o Hin. apply list_elem_of_In in Hin.
    apply in_map_iff in Hin as (u & <- & _). apply lookup_insert_eq.
Qed.

(** * Further properties of the routes *)

(** ** Signing up and signing in *)

Lemma message_json_no_password message :
  forall o, message_json message = JObject o -> o !! "password"%string = None.
Proof. intros o [= <-]. reflexivity. Qed.

Lemma userWithoutPassword_no_password u :
  forall o, JObject (userWithoutPassword u) = JObject o -> o !! "password"%string = None.
Proof. intros o [= <-]. apply lookup_delete_eq. Qed.

(** The sign-up handler, branch by branch. *)
Lemma signup_cases {Body : Type} (signUpSchema_parse : Body -> list string + SignUpData.t)
  (body : Body) (now : Z) (w : World) :
  signup signUpSchema_parse body now w =
  match signUpSchema_parse body with
  | inl errors => (inr (mkResponse 400 (JValidationError errors)), w)
  | inr d =>
      match fst (getUserByEmail (SignUpData.email d) w) with
      | inr (Some _) =>
          (inr (mkResponse 400 (message_json "User with this email already exists")), w)
      | _ =>
          match fst (getUserByUsername (SignUpData.username d) w) with
          | inr (Some _) =>
              (inr (mkResponse 400 (message_json "Username already taken")), w)
          | _ =>
              match createUser d now w with
              | (inr (Some user), w') =>
                  (inr (mkResponse 201 (JObject (userWithoutPassword user))), w')
              | (_, w') =>
                  (inr (mkResponse 500 (message_json "Failed to create account")), w')
              end
          end
      end
  end.
Proof.
  unfold signup, try_catch, bind at 1, parse.
  destruct (signUpSchema_parse body) as [errors|d]; [reflexivity|].
  unfold ret at 1. cbv beta iota.
  rewrite getUserByEmail_unfold, getUserByUsername_unfold. cbn [fst].
  unfold bind at 1. rewrite getUserByEmail_unfold.
  destruct (first (List.filter _ (users (db w)))) as [u|]; [reflexivity|].
  unfold bind at 1. rewrite getUserByUsername_unfold.
  destruct (first (List.filter _ (users (db w)))) as [u|]; [reflexivity|].
  reflexivity.
Qed.

(** When the validated sign-up data carry a fresh email and the username of
    a stored user, the sign-up route answers 400 with the username message
    and leaves the state as it was. *)
Theorem signup_taken_username {Body : Type}
  (signUpSchema_parse : Body -> list string + SignUpData.t)
  (body : Body) (now : Z) (w : World) (validatedData : SignUpData.t) (u : User.t) :
  signUpSchema_parse body = inr validatedData ->
  (forall u', In u' (users (db w)) -> User.email u' <> SignUpData.email validatedData) ->
  In u (users (db w)) ->
  User.username u = SignUpData.username validatedData ->
  signup signUpSchema_parse body now w =
  (inr (mkResponse 400 (message_json "Username already taken")), w).
Proof.
  intros Hparse Hfresh Hin Hname. rewrite signup_cases, Hparse.
  rewrite getUserByEmail_unfold, getUserByUsername_unfold. cbn [fst].
  rewrite (proj2 (first_filter_None _ _)).
  2:{ intros u' Hu'. apply bool_decide_eq_false_2. by apply Hfresh. }
  destruct (first_filter_Some
              (fun u0 => bool_decide (User.username u0 = SignUpData.username validatedData))
              (users (db w)) u Hin) as [u' Hu'].
  { by apply bool_decide_eq_true_2. }
  rewrite first_firstn_1 in Hu'. by rewrite Hu'.
Qed.

Lemma signup_taken_username_witness :
  let body := SignUpData.mk "a" "b@x.com" "pw" "Bob" "Ray" in
  signup parse_nonempty body 5 ann_online =
  (inr (mkResponse 400 (message_json "Username already taken")), ann_online).
Proof.
  apply (signup_taken_username parse_nonempty _ 5 ann_online
           (SignUpData.mk "a" "b@x.com" "pw" "Bob" "Ray")
           (User.mk 1 "a" "a@x.com" "secret" "Ann" "Lee" None None None None None 0
              (Some 1001))).
  - reflexivity.
  - intros u' [<-|[]]. done.
  - by left.
  - reflexivity.
Defined.

(** The sign-in handler, branch by branch. *)
Lemma signin_cases {Body : Type} (signInSchema_parse : Body -> list string + SignInData.t)
  (body : Body) (w : World) :
  signin signInSchema_parse body w =
  match signInSchema_parse body with
  | inl errors => (inr (mkResponse 400 (JValidationError errors)), w)
  | inr c =>
      match fst (authenticateUser c w) with
      | inr (Some user) => (inr (mkResponse 200 (JObject (userWithoutPassword user))), w)
      | _ => (inr (mkResponse 401 (message_json "Invalid email or password")), w)
      end
  end.
Proof.
  unfold signin, try_catch, bind at 1, parse_schema.
  destruct (signInSchema_parse body) as [errors|c]; [reflexivity|].
  unfold ret at 1. cbv beta iota. unfold bind at 1.
  rewrite authenticateUser_unfold. cbn [fst].
  by destruct (match first _ with Some _ => _ | None => _ end).
Qed.

(** The sign-in route never changes the state.  It answers 200 only for
    credentials that pass validation and match the email and the password of
    a stored user, with that user without the password; credentials whose
    email no stored user has are answered 401. *)
Theorem signin_accepts_matching_credentials_only {Body : Type}
  (signInSchema_parse : Body -> list string + SignInData.t) (body : Body) (w : World) :
  exists resp,
    signin signInSchema_parse body w = (inr resp, w) /\
    (status resp = 200 ->
     exists c u,
       signInSchema_parse body = inr c /\
       In u (users (db w)) /\
       User.email u = SignInData.email c /\
       User.password u = SignInData.password c /\
       json resp = JObject (userWithoutPassword u)) /\
    (forall c, signInSchema_parse body = inr c ->
       (forall u, In u (users (db w)) -> User.email u <> SignInData.email c) ->
       resp = mkResponse 401 (message_json "Invalid email or password")).
Proof.
  rewrite signin_cases.
  destruct (signInSchema_parse body) as [errors|c] eqn:Hparse.
  { eexists. split; [reflexivity|]. split; [done|]. done. }
  destruct (authenticateUser_sound c w) as (Hsound & Hnone).
  destruct (fst (authenticateUser c w)) as [e|[u|]] eqn:Hauth.
  - eexists. split; [reflexivity|]. by split.
  - eexists. split; [reflexivity|]. split.
    + intros _. destruct (Hsound u eq_refl) as (Hin & Hemail & Hpw).
      by exists c, u.
    + intros c' [= <-] Hall. by specialize (Hnone Hall).
  - eexists. split; [reflexivity|]. by split.
Qed.

Lemma get_user_cases (userId : Z) (w : World) :
  get_user userId w =
  match fst (getUser userId w) with
  | inr (Some user) => (inr (mkResponse 200 (JObject (userWithoutPassword user))), w)
  | _ => (inr (mkResponse 404 (message_json "User not found")), w)
  end.
Proof.
  unfold get_user, try_catch, bind. rewrite getUser_unfold. cbn [fst].
  by destruct (first _).
Qed.

(** No response of the sign-up, sign-in and user routes carries a
    [password] key, whatever the body, the id and the state are. *)
Theorem user_routes_never_send_password {Body : Type}
  (signUpSchema_parse : Body -> list string + SignUpData.t)
  (signInSchema_parse : Body -> list string + SignInData.t)
  (body : Body) (now userId : Z) (w : World) :
  (forall resp o,
     fst (signup signUpSchema_parse body now w) = inr resp ->
     json resp = JObject o -> o !! "password"%string = None) /\
  (forall resp o,
     fst (signin signInSchema_parse body w) = inr resp ->
     json resp = JObject o -> o !! "password"%string = None) /\
  (forall resp o,
     fst (get_user userId w) = inr resp ->
     json resp = JObject o -> o !! "password"%string = None).
Proof.
  split; [|split]; intros resp o.
  - rewrite signup_cases.
    destruct (signUpSchema_parse body) as [errors|d]; [by intros [= <-]|].
    destruct (fst (getUserByEmail _ w)) as [?|[?|]];
      [|intros [= <-]; apply message_json_no_password|];
      (destruct (fst (getUserByUsername _ w)) as [?|[?|]];
       [|intros [= <-]; apply message_json_no_password|]);
      rewrite createUser_unfold; simpl; intros [= <-];
      apply userWithoutPassword_no_password.
  - rewrite signin_cases.
    destruct (signInSchema_parse body) as [errors|c]; [by intros [= <-]|].
    destruct (fst (authenticateUser c w)) as [?|[?|]]; intros [= <-];
      (apply message_json_no_password || apply userWithoutPassword_no_password).
  - rewrite get_user_cases.
    destruct (fst (getUser userId w)) as [?|[?|]]; intros [= <-];
      (apply message_json_no_password || apply userWithoutPassword_no_password).
Qed.

(** ** Signing up while other requests are handled *)

(** The interleaved handler, branch by branch: the look-up by email reads
    the state [w], the look-up by username the state after [others1], and
    the insert goes into the state after [others2]. *)
Lemma signup_interleaved_cases {Body : Type}
  (signUpSchema_parse : Body -> list string + SignUpData.t)
  (body : Body) (now : Z) (others1 others2 : list Call) (w : World) :
  signup_interleaved signUpSchema_parse body now others1 others2 w =
  match signUpSchema_parse body with
  | inl errors => (inr (mkResponse 400 (JValidationError errors)), w)
  | inr d =>
      match fst (getUserByEmail (SignUpData.email d) w) with
      | inr (Some _) =>
          (inr (mkResponse 400 (message_json "User with this email already exists")),
           run others1 w)
      | _ =>
          match fst (getUserByUsername (SignUpData.username d) (run others1 w)) with
          | inr (Some _) =>
              (inr (mkResponse 400 (message_json "Username already taken")),
               run others2 (run others1 w))
          | _ =>
              match createUser d now (run others2 (run others1 w)) with
              | (inr (Some user), w') =>
                  (inr (mkResponse 201 (JObject (userWithoutPassword user))), w')
              | (_, w') =>
                  (inr (mkResponse 500 (message_json "Failed to create account")), w')
              end
          end
      end
  end.
Proof.
  unfold signup_interleaved, try_catch, bind at 1, parse_schema.
  destruct (signUpSchema_parse body) as [errors|d]; [reflexivity|].
  unfold ret at 1. cbv beta iota.
  rewrite !getUserByEmail_unfold, !getUserByUsername_unfold. cbn [fst].
  unfold bind at 1. rewrite getUserByEmail_unfold.
  unfold bind at 1, meanwhile at 1.
  destruct (first (List.filter _ (users (db w)))) as [u|]; [reflexivity|].
  unfold bind at 1. rewrite getUserByUsername_unfold.
  unfold bind at 1, meanwhile at 1.
  destruct (first (List.filter _ (users (db (run others1 w))))) as [u|]; [reflexivity|].
  reflexivity.
Qed.

(** Without other requests the interleaved handler is the handler. *)
Lemma signup_interleaved_alone {Body : Type}
  (signUpSchema_parse : Body -> list string + SignUpData.t) (body : Body) (now : Z)
  (w : World) :
  signup_interleaved signUpSchema_parse body now [] [] w
  = signup signUpSchema_parse body now w.
Proof. by rewrite signup_interleaved_cases, signup_cases. Qed.

Lemma signup_interleaved_created {Body : Type}
  (signUpSchema_parse : Body -> list string + SignUpData.t)
  (body : Body) (now : Z) (others1 others2 : list Call) (w : World) resp w' :
  signup_interleaved signUpSchema_parse body now others1 others2 w = (inr resp, w') ->
  status resp = 201 ->
  exists d user,
    signUpSchema_parse body = inr d /\
    createUser d now (run others2 (run others1 w)) = (inr (Some user), w') /\
    json resp = JObject (userWithoutPassword user) /\
    fst (getUserByEmail (SignUpData.email d) w) = inr None /\
    fst (getUserByUsername (SignUpData.username d) (run others1 w)) = inr None.
Proof.
  rewrite signup_interleaved_cases.
  destruct (signUpSchema_parse body) as [errors|d]; [by intros [= <- <-]|].
  rewrite getUserByEmail_unfold, getUserByUsername_unfold. cbn [fst].
  destruct (first (List.filter _ (users (db w)))) as [u|] eqn:Hemail;
    [by intros [= <- <-]|].
  destruct (first (List.filter _ (users (db (run others1 w))))) as [u|] eqn:Hname;
    [by intros [= <- <-]|].
  rewrite createUser_unfold. cbv zeta. cbn [fst snd insert_users first head].
  intros [= <- <-] _. eexists d, _.
  split; [done|]. split; [reflexivity|]. split; [reflexivity|].
  rewrite getUserByEmail_unfold, getUserByUsername_unfold. cbn [fst].
  by rewrite Hemail, Hname.
Qed.

(** Whatever other requests run while the sign-up handler waits, the
    handler itself writes only when it answers 201, and then one user: the
    row is appended to the table as the other requests left it, it carries
    the email and the username of the validated data, and the response is
    that row without its password.  What the look-ups guarantee is about the
    moment they ran: no user stored before the handler had the email, and no
    user stored when the look-up by username ran had the username. *)
Theorem signup_stores_one_user_or_nothing {Body : Type}
  (signUpSchema_parse : Body -> list string + SignUpData.t)
  (body : Body) (now : Z) (others1 others2 : list Call) (w : World) :
  exists resp w',
    signup_interleaved signUpSchema_parse body now others1 others2 w = (inr resp, w') /\
    (status resp <> 201 ->
     w' = w \/ w' = run others1 w \/ w' = run others2 (run others1 w)) /\
    (status resp = 201 ->
     exists d user,
       signUpSchema_parse body = inr d /\
       users (db w') = users (db (run others2 (run others1 w))) ++ [user] /\
       messages (db w') = messages (db (run others2 (run others1 w))) /\
       this w' = this (run others2 (run others1 w)) /\
       json resp = JObject (userWithoutPassword user) /\
       User.email user = SignUpData.email d /\
       User.username user = SignUpData.username d /\
       (forall u, In u (users (db w)) -> User.email u <> SignUpData.email d) /\
       (forall u, In u (users (db (run others1 w))) ->
          User.username u <> SignUpData.username d)).
Proof.
  destruct (signup_interleaved signUpSchema_parse body now others1 others2 w)
    as [[e|resp] w'] eqn:Hsignup.
  { exfalso. rewrite signup_interleaved_cases in Hsignup.
    destruct (signUpSchema_parse body) as [errors|d]; [done|].
    destruct (fst (getUserByEmail _ w)) as [?|[?|]]; [|done|];
      (destruct (fst (getUserByUsername _ _)) as [?|[?|]]; [|done|]);
      by rewrite createUser_unfold in Hsignup. }
  exists resp, w'. split; [done|]. split.
  - intros Hnot. rewrite signup_interleaved_cases in Hsignup.
    destruct (signUpSchema_parse body) as [errors|d];
      [injection Hsignup as <- <-; by left|].
    destruct (fst (getUserByEmail _ w)) as [?|[?|]];
      [|injection Hsignup as <- <-; right; by left|];
      (destruct (fst (getUserByUsername _ _)) as [?|[?|]];
       [|injection Hsignup as <- <-; right; by right|]);
      rewrite createUser_unfold in Hsignup; by injection Hsignup as <- <-.
  - intros H201.
    destruct (signup_interleaved_created signUpSchema_parse body now others1 others2
                w resp w' Hsignup H201)
      as (d & user & Hparse & Hcreate & Hjson & Hfe & Hfn).
    rewrite createUser_unfold in Hcreate. cbv zeta in Hcreate.
    cbn [fst snd insert_users first head] in Hcreate.
    injection Hcreate as <- <-.
    exists d. eexists. do 7 (split; [done|]). split.
    + intros u Hin. rewrite getUserByEmail_unfold in Hfe. injection Hfe as Hfe.
      intros Heq. pose proof (proj1 (first_filter_None _ _) Hfe u Hin) as Hp.
      by apply bool_decide_eq_false_1 in Hp.
    + intros u Hin. rewrite getUserByUsername_unfold in Hfn. injection Hfn as Hfn.
      intros Heq. pose proof (proj1 (first_filter_None _ _) Hfn u Hin) as Hp.
      by apply bool_decide_eq_false_1 in Hp.
Qed.

Lemma fresh_email_lookup w email :
  (forall u, In u (users (db w)) -> User.email u <> email) ->
  fst (getUserByEmail email w) = inr None.
Proof.
  intros Hfresh. rewrite getUserByEmail_unfold. cbn [fst]. f_equal.
  apply first_filter_None. intros u Hin. apply bool_decide_eq_false_2.
  by apply Hfresh.
Qed.

(** A sign-up answered 201 can be followed by a sign-in, provided no user
    with the same email was stored when the handler inserted its row (no
    other request put one there while the handler waited): then, with the
    email and the password of the sign-up data, the sign-in route answers
    200 with the body the sign-up sent, and leaves the state as it is. *)
Theorem signup_then_signin {Body : Type}
  (signUpSchema_parse : Body -> list string + SignUpData.t)
  (signInSchema_parse : Body -> list string + SignInData.t)
  (body body' : Body) (now : Z) (others1 others2 : list Call) (w w' : World)
  (resp : Response) (d : SignUpData.t) :
  signup_interleaved signUpSchema_parse body now others1 others2 w = (inr resp, w') ->
  status resp = 201 ->
  signUpSchema_parse body = inr d ->
  (forall u, In u (users (db (run others2 (run others1 w)))) ->
     User.email u <> SignUpData.email d) ->
  signInSchema_parse body'
  = inr (SignInData.mk (SignUpData.email d) (SignUpData.password d)) ->
  signin signInSchema_parse body' w' = (inr (mkResponse 200 (json resp)), w').
Proof.
  intros Hsignup H201 Hparse Hfresh Hparse'.
  destruct (signup_interleaved_created signUpSchema_parse body now others1 others2
              w resp w' Hsignup H201)
    as (d' & user & Hd' & Hcreate & Hjson & _ & _).
  rewrite Hparse in Hd'. injection Hd' as <-.
  destruct (createUser_then_getUserByEmail (run others2 (run others1 w)) d now
              (fresh_email_lookup _ _ Hfresh))
    as (user' & Hcreate' & Hemail & Hpw & Hget).
  rewrite Hcreate in Hcreate', Hget. injection Hcreate' as <- _. cbn [snd] in Hget.
  rewrite signin_cases, Hparse'. unfold authenticateUser.
  erewrite bind_inr; [|exact Hget]. cbn [SignInData.password].
  rewrite bool_decide_eq_false_2 by (intros Hne; by apply Hne).
  by rewrite Hjson.
Qed.

Lemma signup_then_signin_witness :
  let bob := SignUpData.mk "b" "b@x.com" "pw" "Bob" "Ray" in
  let credentials (body : SignUpData.t) : list string + SignInData.t :=
    inr (SignInData.mk (SignUpData.email body) (SignUpData.password body)) in
  let others := [CreateMessage (says "hello" "ann" 1) 3; UpdateUserActivity 1 4 4] in
  exists resp w',
    signup_interleaved parse_nonempty bob 5 others [] ann_online = (inr resp, w') /\
    status resp = 201 /\
    signin credentials bob w' = (inr (mkResponse 200 (json resp)), w').
Proof.
  cbv zeta. eexists _, _. split; [reflexivity|]. split; [reflexivity|].
  apply (signup_then_signin parse_nonempty _
           (SignUpData.mk "b" "b@x.com" "pw" "Bob" "Ray")
           (SignUpData.mk "b" "b@x.com" "pw" "Bob" "Ray") 5
           [CreateMessage (says "hello" "ann" 1) 3; UpdateUserActivity 1 4 4] []
           ann_online _ _ (SignUpData.mk "b" "b@x.com" "pw" "Bob" "Ray"));
    try reflexivity.
  intros u [<-|[]]. done.
Defined.

(** The look-ups of the sign-up handler do not keep emails unique across
    its [await]s.  When another sign-up for the same email inserts its row
    while the handler waits for the look-up by username, the handler still
    answers 201 and appends its own row: two stored users share the email.
    A sign-in with the email finds the other request's row, so with a
    password that differs from the other request's the new account is
    answered 401. *)
Theorem overlapping_signups_share_email {Body : Type}
  (signUpSchema_parse : Body -> list string + SignUpData.t)
  (signInSchema_parse : Body -> list string + SignInData.t)
  (body body' : Body) (now now' : Z) (w : World) (d d' : SignUpData.t) :
  signUpSchema_parse body = inr d ->
  (forall u, In u (users (db w)) ->
     User.email u <> SignUpData.email d /\ User.username u <> SignUpData.username d) ->
  SignUpData.email d' = SignUpData.email d ->
  exists resp w' other user,
    signup_interleaved signUpSchema_parse body now [] [CreateUser d' now'] w
    = (inr resp, w') /\
    status resp = 201 /\
    json resp = JObject (userWithoutPassword user) /\
    users (db w') = users (db w) ++ [other; user] /\
    User.email other = SignUpData.email d /\
    User.email user = SignUpData.email d /\
    User.id other < User.id user /\
    (SignUpData.password d <> SignUpData.password d' ->
     signInSchema_parse body'
     = inr (SignInData.mk (SignUpData.email d) (SignUpData.password d)) ->
     signin signInSchema_parse body' w'
     = (inr (mkResponse 401 (message_json "Invalid email or password")), w')).
Proof.
  intros Hparse Hfresh Hsame.
  assert (first (List.filter
                   (fun u => bool_decide (User.email u = SignUpData.email d))
                   (users (db w))) = None) as Hfe.
  { apply first_filter_None. intros u Hin. apply bool_decide_eq_false_2.
    by apply Hfresh. }
  assert (first (List.filter
                   (fun u => bool_decide (User.username u = SignUpData.username d))
                   (users (db w))) = None) as Hfn.
  { apply first_filter_None. intros u Hin. apply bool_decide_eq_false_2.
    by apply Hfresh. }
  rewrite signup_interleaved_cases, Hparse.
  rewrite getUserByEmail_unfold, getUserByUsername_unfold. cbn [fst run fold_left].
  rewrite Hfe, Hfn. cbn [exec]. rewrite !createUser_unfold. cbv zeta.
  cbn [fst snd insert_users first head set_db db users users_id_seq].
  eexists _, _, _, _. split; [reflexivity|]. split; [reflexivity|].
  split; [reflexivity|]. split; [by rewrite <- List.app_assoc|].
  split; [exact Hsame|]. split; [reflexivity|]. split; [simpl; lia|].
  intros Hpw Hparse'. rewrite signin_cases, Hparse', authenticateUser_unfold.
  cbn [fst SignInData.email SignInData.password db users set_db].
  rewrite <- List.app_assoc, List.filter_app.
  destruct (List.filter _ (users (db w))) as [|u l] eqn:Hfilter; [|done].
  simpl. rewrite Hsame, bool_decide_eq_true_2 by done. simpl.
  rewrite bool_decide_eq_true_2; [done|]. by intros Heq; apply Hpw.
Qed.

Lemma overlapping_signups_share_email_witness :
  let bob := SignUpData.mk "b" "b@x.com" "pw" "Bob" "Ray" in
  let rob := SignUpData.mk "r" "b@x.com" "other" "Rob" "Ray" in
  let credentials (body : SignUpData.t) : list string + SignInData.t :=
    inr (SignInData.mk (SignUpData.email body) (SignUpData.password body)) in
  exists resp w',
    signup_interleaved parse_nonempty bob 5 [] [CreateUser rob 4] ann_online
    = (inr resp, w') /\
    status resp = 201 /\
    List.map User.email (users (db w'))
    = ["a@x.com"%string; "b@x.com"%string; "b@x.com"%string] /\
    signin credentials bob w'
    = (inr (mkResponse 401 (message_json "Invalid email or password")), w').
Proof.
  cbv zeta.
  destruct (overlapping_signups_share_email parse_nonempty
              (fun body : SignUpData.t =>
                 inr (SignInData.mk (SignUpData.email body) (SignUpData.password body))
                 : list string + SignInData.t)
              (SignUpData.mk "b" "b@x.com" "pw" "Bob" "Ray")
              (SignUpData.mk "b" "b@x.com" "pw" "Bob" "Ray") 5 4 ann_online
              (SignUpData.mk "b" "b@x.com" "pw" "Bob" "Ray")
              (SignUpData.mk "r" "b@x.com" "other" "Rob" "Ray"))
    as (resp & w' & other & user & Hsignup & H201 & _ & Husers & Ho & Hu & _ & Hsignin).
  - reflexivity.
  - intros u [<-|[]]. by split.
  - reflexivity.
  - exists resp, w'. split; [exact Hsignup|]. split; [exact H201|]. split.
    + rewrite Husers, List.map_app. simpl. by rewrite Ho, Hu.
    + by apply Hsignin.
Defined.

(** ** The message routes *)

Lemma set_messages_same w :
  set_db (set_messages (messages (db w)) (db w)) w = w.
Proof. by destruct w as [[] ?]. Qed.

Lemma deleteMessage_false_same_state id userId w :
  fst (deleteMessage id userId w) = inr false -> snd (deleteMessage id userId w) = w.
Proof.
  intros Hfalse.
  pose proof (proj1 (deleteMessage_false_iff id userId w) Hfalse) as Hall.
  rewrite deleteMessage_unfold. cbv zeta. cbn [snd].
  rewrite filter_all_true; [apply set_messages_same|].
  intros m Hin. rewrite bool_decide_eq_false_2; [done|]. by apply Hall.
Qed.

Lemma updateMessage_null_same_state id userId updates now w :
  fst (updateMessage id userId updates now w) = inr None ->
  snd (updateMessage id userId updates now w) = w.
Proof.
  intros Hnone.
  pose proof (proj1 (updateMessage_null_iff id userId updates now w) Hnone) as Hall.
  rewrite updateMessage_unfold. cbv zeta. cbn [snd].
  rewrite (updated_rows_none (fun m => bool_decide (Message.userId m = userId)));
    [apply set_messages_same|].
  intros m Hin. apply bool_decide_eq_false_2. by apply Hall.
Qed.

Lemma delete_message_cases messageId userId w :
  delete_message messageId userId w =
  match userId with
  | None => (inr (reply_message 400 "User ID is required"), w)
  | Some u =>
      if bool_decide (u = 0) then (inr (reply_message 400 "User ID is required"), w)
      else
        match fst (deleteMessage messageId u w) with
        | inr true => (inr (mkReply 204 SentNothing), snd (deleteMessage messageId u w))
        | _ => (inr (reply_message 404 "Message not found or unauthorized"),
                snd (deleteMessage messageId u w))
        end
  end.
Proof.
  unfold delete_message, try_catch. destruct userId as [u|]; [|reflexivity].
  case_bool_decide; [reflexivity|].
  unfold bind. rewrite deleteMessage_unfold. cbv zeta. cbn [fst snd].
  by destruct (bool_decide (0 < _)).
Qed.

(** The delete route answers 400 exactly when the body gives no user id or
    the id 0, 404 exactly when the user id it gives owns no stored message,
    and 204 otherwise; every answer but 204 leaves the state as it was. *)
Theorem delete_message_outcomes (messageId : Z) (userId : option Z) (w : World) :
  exists reply w',
    delete_message messageId userId w = (inr reply, w') /\
    (code reply = 400 <-> userId = None \/ userId = Some 0) /\
    (code reply = 404 <->
     exists u, userId = Some u /\ u <> 0 /\
       forall m, In m (messages (db w)) -> Message.userId m <> u) /\
    (code reply = 204 <->
     exists u m, userId = Some u /\ u <> 0 /\
       In m (messages (db w)) /\ Message.userId m = u) /\
    (code reply <> 204 -> w' = w).
Proof.
  rewrite delete_message_cases. destruct userId as [u|].
  2:{ eexists _, _. split; [reflexivity|]. simpl.
      repeat split; try done; try (by left).
      - by intros (? & ? & _).
      - by intros (? & ? & ? & _). }
  case_bool_decide as Hu.
  { subst u. eexists _, _. split; [reflexivity|]. simpl.
    repeat split; try done; try (by right).
    - by intros (? & [= <-] & ? & _).
    - by intros (? & ? & [= <-] & ? & _). }
  destruct (fst (deleteMessage messageId u w)) as [e|[|]] eqn:Hdel.
  - by rewrite deleteMessage_unfold in Hdel.
  - eexists _, _. split; [reflexivity|]. simpl.
    assert (exists m, In m (messages (db w)) /\ Message.userId m = u) as (m & Hin & Hm).
    { rewrite deleteMessage_unfold in Hdel. simpl in Hdel. injection Hdel as Hdel.
      apply bool_decide_eq_true_1 in Hdel.
      destruct (List.filter (fun m => bool_decide (Message.userId m = u))
                  (messages (db w))) as [|m l] eqn:E; [simpl in Hdel; lia|].
      exists m. assert (In m (m :: l)) as Hin by (by left).
      rewrite <- E in Hin. apply filter_In in Hin as [Hin Ht].
      by apply bool_decide_eq_true_1 in Ht. }
    repeat split; try done.
    + intros [|[= ->]]; done.
    + intros (u' & [= <-] & _ & Hall). by destruct (Hall m Hin).
    + intros _. by exists u, m.
  - eexists _, _. split; [reflexivity|]. simpl.
    pose proof (proj1 (deleteMessage_false_iff messageId u w) Hdel) as Hall.
    repeat split; try done.
    + intros [|[= ->]]; done.
    + intros _. by exists u.
    + intros (u' & m & [= <-] & _ & Hin & Hm). by destruct (Hall m Hin).
    + intros _. exact (deleteMessage_false_same_state messageId u w Hdel).
Qed.

Lemma patch_message_cases {Body : Type}
  (updateMessageSchema_parse : Body -> list string + UpdateMessage.t)
  messageId userId (updateData : Body) now w :
  patch_message updateMessageSchema_parse messageId userId updateData now w =
  match userId with
  | None => (inr (reply_message 400 "User ID is required"), w)
  | Some u =>
      if bool_decide (u = 0) then (inr (reply_message 400 "User ID is required"), w)
      else
        match updateMessageSchema_parse updateData with
        | inl errors => (inr (mkReply 400 (SentJson (JValidationError errors))), w)
        | inr updates =>
            match fst (updateMessage messageId u updates now w) with
            | inr (Some m) =>
                (inr (mkReply 200 (SentMessage (Some m))),
                 snd (updateMessage messageId u updates now w))
            | _ =>
                (inr (reply_message 404 "Message not found or unauthorized"),
                 snd (updateMessage messageId u updates now w))
            end
        end
  end.
Proof.
  unfold patch_message, try_catch. destruct userId as [u|]; [|reflexivity].
  case_bool_decide; [reflexivity|].
  unfold bind at 1, parse_schema.
  destruct (updateMessageSchema_parse updateData) as [errors|updates]; [reflexivity|].
  unfold ret at 1. cbv beta iota. unfold bind.
  rewrite updateMessage_unfold. cbv zeta. cbn [fst snd].
  by destruct (first _).
Qed.

Lemma first_map {A B : Type} (f : A -> B) (l : list A) :
  first (List.map f l) = option_map f (first l).
Proof. by destruct l. Qed.

(** The patch route asks for the user id first: without one, or with the id
    0, it answers 400 whatever the rest of the body is.  Every answer but
    200 leaves the state as it was.  A 200 carries a stored message that the
    caller owns, with the content of the validated update and the time of
    the call as [updatedAt]. *)
Theorem patch_message_outcomes {Body : Type}
  (updateMessageSchema_parse : Body -> list string + UpdateMessage.t)
  (messageId : Z) (userId : option Z) (updateData : Body) (now : Z) (w : World) :
  exists reply w',
    patch_message updateMessageSchema_parse messageId userId updateData now w
    = (inr reply, w') /\
    (userId = None \/ userId = Some 0 ->
     reply = reply_message 400 "User ID is required") /\
    (code reply <> 200 -> w' = w) /\
    (code reply = 200 ->
     exists u updates m,
       userId = Some u /\ u <> 0 /\
       updateMessageSchema_parse updateData = inr updates /\
       sent reply = SentMessage (Some m) /\
       In m (messages (db w')) /\
       Message.userId m = u /\
       Message.content m = UpdateMessage.content updates /\
       Message.updatedAt m = Some now).
Proof.
  rewrite patch_message_cases. destruct userId as [u|].
  2:{ eexists _, _. split; [reflexivity|]. by repeat split. }
  case_bool_decide as Hu.
  { eexists _, _. split; [reflexivity|]. by repeat split. }
  destruct (updateMessageSchema_parse updateData) as [errors|updates] eqn:Hparse.
  { eexists _, _. split; [reflexivity|]. repeat split; try done.
    intros [|[= ->]]; done. }
  destruct (fst (updateMessage messageId u updates now w)) as [e|[m|]] eqn:Hupd.
  - by rewrite updateMessage_unfold in Hupd.
  - eexists _, _. split; [reflexivity|]. simpl.
    split; [intros [|[= ->]]; done|]. split; [done|]. intros _.
    exists u, updates, m. do 4 (split; [done|]).
    rewrite updateMessage_unfold in Hupd. cbv zeta in Hupd. cbn [fst] in Hupd.
    injection Hupd as Hupd. rewrite first_map in Hupd.
    destruct (first (List.filter _ (messages (db w)))) as [m0|] eqn:Hfirst; [|done].
    injection Hupd as <-. apply first_filter_In in Hfirst as [Hin Hown].
    split; [|by apply bool_decide_eq_true_1 in Hown].
    apply (updated_rows_In (set_updates updates now)
             (fun r => bool_decide (Message.userId r = u))).
    right. by exists m0.
  - eexists _, _. split; [reflexivity|]. simpl.
    split; [intros [|[= ->]]; done|]. split; [|done]. intros _.
    exact (updateMessage_null_same_state messageId u updates now w Hupd).
Qed.

(** ** Posting and reading the feed *)



(** ** The theme route *)

(** In every reachable state the theme route answers 400 unless the body
    gives a number other than 0 as theme id; for a number outside 1..6 it
    answers 500 with the text of the storage error and the active theme
    stays; for a number from 1 to 6 it answers 200 with the theme of that
    id, which the theme read afterwards returns. *)
Theorem post_theme_outcomes (Number_toString : Z -> string)
  (library_message : Exn -> string) (themeId : option value) (w : World) :
  reachable w ->
  ((forall n, themeId = Some (VNum n) -> n = 0) ->
   post_theme Number_toString library_message themeId w
   = (inr (reply_message 400 "Theme ID is required and must be a number"), w)) /\
  (forall n, themeId = Some (VNum n) -> n <> 0 -> ~ (1 <= n <= 6) ->
     post_theme Number_toString library_message themeId w
     = (inr (reply_message 500
               ("Theme with ID " +:+ Number_toString n +:+ " not found")), w)) /\
  (forall n, themeId = Some (VNum n) -> 1 <= n <= 6 ->
     exists theme w',
       post_theme Number_toString library_message themeId w
       = (inr (mkReply 200 (SentTheme (Some theme))), w') /\
       ChatTheme.id theme = n /\
       get_theme w' = (inr (mkReply 200 (SentTheme (Some theme))), w')).
Proof.
  intros Hw. apply reachable_storage_ok in Hw as (clock & Hthemes & _).
  split; [|split].
  - intros Hzero. unfold post_theme, try_catch.
    destruct themeId as [[|n| | |]|]; try reflexivity.
    by rewrite (bool_decide_eq_true_2 _ (Hzero n eq_refl)).
  - intros n -> Hn Hout. unfold post_theme, try_catch.
    rewrite (bool_decide_eq_false_2 _ Hn).
    unfold setActiveTheme, bind, get_world. cbv beta iota.
    by rewrite Hthemes, (seeded_lookup_None _ _ Hout).
  - intros n -> Hin. unfold post_theme, try_catch.
    rewrite bool_decide_eq_false_2 by lia.
    destruct (seeded_lookup_is_Some clock n Hin) as [theme Htheme].
    unfold setActiveTheme, bind, get_world. cbv beta iota.
    rewrite Hthemes, Htheme. simpl.
    eexists _, _. split; [reflexivity|].
    split; [by apply seeded_lookup_Some in Htheme as (_ & ? & _)|reflexivity].
Qed.

Lemma post_theme_outcomes_witness :
  let toString (n : Z) : string := if bool_decide (n = 9) then "9" else "?" in
  let library (e : Exn) : string := "library error" in
  post_theme toString library (Some (VNum 9)) two_owners
  = (inr (reply_message 500 "Theme with ID 9 not found"), two_owners) /\
  post_theme toString library (Some (VStr "2")) two_owners
  = (inr (reply_message 400 "Theme ID is required and must be a number"), two_owners).
Proof.
  cbv zeta.
  assert (reachable two_owners) as Hw by (apply reachable_run; constructor).
  split.
  - destruct (post_theme_outcomes
                (fun n => if bool_decide (n = 9) then "9" else "?")
                (fun _ => "library error") (Some (VNum 9)) two_owners Hw)
      as (_ & Hunknown & _).
    apply (Hunknown 9); [reflexivity|lia|lia].
  - destruct (post_theme_outcomes
                (fun n => if bool_decide (n = 9) then "9" else "?")
                (fun _ => "library error") (Some (VStr "2")) two_owners Hw)
      as (Hbad & _).
    apply Hbad. intros n. discriminate.
Defined.

(** * Further properties of the in-memory class and of the client *)

Lemma mem_updateMessage_other_user_witness :
  let s := MemStorage.mk {[ 1 := posted 1 "hello" "ann" 1 10 None ]} 2 in
  MemStorage.updateMessage 1 2 (UpdateMessage.mk "edited") 30 s = (None, s).
Proof.
  apply (mem_updateMessage_other_user _ 1 (posted 1 "hello" "ann" 1 10 None)).
  - reflexivity.
  - simpl. lia.
Defined.

Lemma mem_deleteMessage_own_witness :
  let s := MemStorage.mk {[ 1 := posted 1 "hello" "ann" 1 10 None;
                            2 := posted 2 "again" "ann" 1 20 None ]} 3 in
  fst (MemStorage.deleteMessage 1 1 s) = true /\
  MemStorage.messages (snd (MemStorage.deleteMessage 1 1 s)) !! 1 = None /\
  MemStorage.messages (snd (MemStorage.deleteMessage 1 1 s)) !! 2
  = Some (posted 2 "again" "ann" 1 20 None).
Proof.
  cbv zeta.
  destruct (mem_deleteMessage_own
              (MemStorage.mk {[ 1 := posted 1 "hello" "ann" 1 10 None;
                                2 := posted 2 "again" "ann" 1 20 None ]} 3)
              1 (posted 1 "hello" "ann" 1 10 None))
    as (Htrue & Hgone & Hframe); [vm_compute; reflexivity|].
  split; [exact Htrue|]. split; [exact Hgone|].
  etrans; [apply (Hframe 2); lia|vm_compute; reflexivity].
Defined.

Lemma filter_split_Permutation {A : Type} (p q : A -> bool) (l : list A) :
  (forall a, q a = negb (p a)) ->
  Permutation (List.filter p l ++ List.filter q l) l.
Proof.
  intros Hq. induction l as [|a l IH]; simpl; [done|].
  rewrite Hq. destruct (p a); simpl.
  - by constructor.
  - rewrite <- Permutation_middle. by constructor.
Qed.

Lemma server_record_has_no_isOnline u lastActive :
  (<["lastActivity"%string := lastActive]> (userWithoutPassword u))
    !! "isOnline"%string = None.
Proof.
  unfold userWithoutPassword. by rewrite lookup_insert_ne, lookup_delete_ne.
Qed.

(** The popover's two lists split the users it received: every user is in
    exactly one of them.  The records [getOnlineUsers] builds carry no
    [isOnline] key, so all of them fall in the online list and none in the
    offline list, whatever their heartbeats are. *)
Theorem popover_lists_split_users (users : list (gmap string value)) :
  Permutation (onlineUsers users ++ offlineUsers users) users /\
  (forall user, In user (onlineUsers users) -> ~ In user (offlineUsers users)) /\
  (forall w result,
     getOnlineUsers w = (inr result, w) ->
     onlineUsers result = result /\ offlineUsers result = []).
Proof.
  split; [|split].
  - apply filter_split_Permutation. intros user.
    destruct (decide (user !! "isOnline"%string = Some (VBool false))) as [Heq|Hne].
    + by rewrite bool_decide_eq_true_2, bool_decide_eq_false_2 by (done || by intros ?).
    + by rewrite bool_decide_eq_false_2, bool_decide_eq_true_2.
  - intros user Hon Hoff.
    apply filter_In in Hon as [_ Hon]. apply filter_In in Hoff as [_ Hoff].
    apply bool_decide_eq_true_1 in Hon. by apply bool_decide_eq_true_1 in Hoff.
  - intros w result [= <-]. unfold onlineUsers, offlineUsers. split.
    + apply filter_all_true. intros o Hin. apply in_map_iff in Hin as (u & <- & _).
      apply bool_decide_eq_true_2. by rewrite server_record_has_no_isOnline.
    + match goal with |- ?f = [] => destruct f as [|o l] eqn:E end; [done|].
      exfalso. assert (In o (o :: l)) as Hin by (by left). rewrite <- E in Hin.
      apply filter_In in Hin as [Hin Hoff]. apply in_map_iff in Hin as (u & <- & _).
      apply bool_decide_eq_true_1 in Hoff.
      by rewrite server_record_has_no_isOnline in Hoff.
Qed.

Lemma minutes_lt (x k : Z) : x / (1000 * 60) < k <-> x < k * 60000.
Proof.
  pose proof (Z.div_mod x (1000 * 60) ltac:(lia)) as Hdiv.
  pose proof (Z.mod_pos_bound x (1000 * 60) ltac:(lia)) as Hmod.
  lia.
Qed.

(** The last-seen text by the age of the heartbeat in milliseconds: "Just
    now" without a heartbeat and below one minute, a heartbeat in the future
    included; whole minutes below one hour; whole hours below one day; the
    formatted date from one day on.  A heartbeat that [isUserActive] accepts
    reads "Just now" or one to four minutes ago. *)
Theorem getLastSeenText_by_age (Number_toString format_MMM_d : Z -> string)
  (now t : Z) :
  let text := getLastSeenText Number_toString format_MMM_d now in
  text None = "Just now"%string /\
  (now - t < 60000 -> text (Some t) = "Just now"%string) /\
  (60000 <= now - t < 3600000 ->
   text (Some t) = Number_toString ((now - t) / 60000) +:+ "m ago") /\
  (3600000 <= now - t < 86400000 ->
   text (Some t) = Number_toString ((now - t) / 3600000) +:+ "h ago") /\
  (86400000 <= now - t -> text (Some t) = format_MMM_d t) /\
  (forall s userId,
     userActivity s !! userId = Some t -> isUserActive now userId s = true ->
     text (Some t) = "Just now"%string \/
     exists n, 1 <= n <= 4 /\ text (Some t) = Number_toString n +:+ "m ago").
Proof.
  cbv zeta. unfold getLastSeenText.
  pose proof (minutes_lt (now - t) 1) as H1.
  pose proof (minutes_lt (now - t) 60) as H60.
  pose proof (minutes_lt (now - t) 1440) as H1440.
  split; [done|]. split; [|split; [|split; [|split]]].
  - intros Hage. rewrite bool_decide_eq_true_2; [done|]. apply H1. lia.
  - intros Hage. rewrite bool_decide_eq_false_2 by (rewrite H1; lia).
    rewrite bool_decide_eq_true_2 by (apply H60; lia). done.
  - intros Hage. rewrite bool_decide_eq_false_2 by (rewrite H1; lia).
    rewrite bool_decide_eq_false_2 by (rewrite H60; lia).
    rewrite bool_decide_eq_true_2 by (apply H1440; lia).
    by rewrite Z.div_div by lia.
  - intros Hage. rewrite bool_decide_eq_false_2 by (rewrite H1; lia).
    rewrite bool_decide_eq_false_2 by (rewrite H60; lia).
    rewrite bool_decide_eq_false_2 by (rewrite H1440; lia). done.
  - intros s userId Hlast Hactive.
    apply isUserActive_spec in Hactive as [Hnone|(t' & Ht' & Hage)]; [congruence|].
    rewrite Hlast in Ht'. injection Ht' as <-.
    case_bool_decide as Hjust; [by left|]. right.
    exists ((now - t) / (1000 * 60)). rewrite H1 in Hjust.
    pose proof (minutes_lt (now - t) 5) as H5.
    rewrite bool_decide_eq_true_2 by (apply H60; lia).
    split; [|done]. split; [|lia].
    pose proof (Z.div_le_lower_bound (now - t) (1000 * 60) 1 ltac:(lia)). lia.
Qed.

Lemma getLastSeenText_by_age_witness :
  let toString (n : Z) : string := if bool_decide (n = 2) then "2" else "?" in
  getLastSeenText toString (fun _ => "Jan 1"%string) 151000 (Some 1000)
  = "2m ago"%string.
Proof.
  cbv zeta.
  destruct (getLastSeenText_by_age
              (fun n => if bool_decide (n = 2) then "2"%string else "?"%string)
              (fun _ => "Jan 1"%string) 151000 1000)
    as (_ & _ & Hminutes & _).
  rewrite Hminutes; [reflexivity|lia].
Defined.
